(** * Petrophysical analysis backend: calculator, zone classifier, aggregator

    A shallow embedding of [app/routes/analysis.py], [app/routes/reports.py]
    and [app/models/petrophysics.py].

    Numbers.  The program computes on Python and numpy floats.  They are
    modelled here by exact rationals extended with the three IEEE special
    values that numpy's division produces ([inf], [-inf], [nan]): rounding,
    overflow, underflow and the sign of zero are not modelled.  Values read
    from the request body and from the database are finite, and a sum or a
    mean of them is exact, where numpy's can overflow to [inf]; the
    saturation block and the classifier are stated on every float, the
    infinite ones included.  A [nan] that the route computes is kept as
    such in the zone record: what a database engine stores in its place
    (SQLite stores NULL) is not modelled. *)

From Stdlib Require Import QArith Qcanon Qround Lqa Lia.
From stdpp Require Import gmap strings list sorting.

Local Open Scope Qc_scope.

(** ** Finite values: canonical rationals *)

(** A decimal literal of the source, [n/d]. *)
Definition frac (n : Z) (d : positive) : Qc := Q2Qc (n # d).

(** An integer of the source ([len(...)], the literal [20], ...). *)
Definition of_Z (n : Z) : Qc := Q2Qc (inject_Z n).

Definition Qcltb (x y : Qc) : bool := bool_decide (x < y).
Definition Qcleb (x y : Qc) : bool := bool_decide (x ≤ y).
Definition Qceqb (x y : Qc) : bool := bool_decide (x = y).

(** ** Floats: finite values and the IEEE special values *)

Inductive num : Type :=
  | Fin (q : Qc)
  | PInf
  | NInf
  | NaN.

Coercion Fin : Qc >-> num.

Global Instance num_eq_dec : EqDecision num.
Proof. solve_decision. Defined.

Definition is_nan (x : num) : bool :=
  match x with NaN => true | _ => false end.

Definition is_finite (x : num) : bool :=
  match x with Fin _ => true | _ => false end.

(** [x < y] on floats: false as soon as one side is [nan]. *)
Definition nltb (x y : num) : bool :=
  match x, y with
  | NaN, _ | _, NaN => false
  | Fin a, Fin b => Qcltb a b
  | NInf, NInf => false
  | NInf, _ => true
  | _, PInf => negb (match x with PInf => true | _ => false end)
  | _, _ => false
  end.

(** [x <= y] on floats. *)
Definition nleb (x y : num) : bool :=
  match x, y with
  | NaN, _ | _, NaN => false
  | Fin a, Fin b => Qcleb a b
  | NInf, _ => true
  | _, PInf => true
  | _, _ => false
  end.

(** [x > y] and [x >= y] are the mirrored comparisons. *)
Definition ngtb (x y : num) : bool := nltb y x.
Definition ngeb (x y : num) : bool := nleb y x.

Definition nopp (x : num) : num :=
  match x with
  | Fin a => Fin (- a)
  | PInf => NInf
  | NInf => PInf
  | NaN => NaN
  end.

Definition nadd (x y : num) : num :=
  match x, y with
  | NaN, _ | _, NaN => NaN
  | Fin a, Fin b => Fin (a + b)
  | PInf, NInf | NInf, PInf => NaN
  | PInf, _ | _, PInf => PInf
  | NInf, _ | _, NInf => NInf
  end.

Definition nsub (x y : num) : num := nadd x (nopp y).

(** The sign of a finite value, as the infinity it selects. *)
Definition inf_of_sign (pos : bool) : num := if pos then PInf else NInf.

Definition nmul (x y : num) : num :=
  match x, y with
  | NaN, _ | _, NaN => NaN
  | Fin a, Fin b => Fin (a * b)
  | Fin a, PInf | PInf, Fin a =>
      if Qceqb a 0 then NaN else inf_of_sign (Qcltb 0 a)
  | Fin a, NInf | NInf, Fin a =>
      if Qceqb a 0 then NaN else inf_of_sign (Qcltb a 0)
  | PInf, PInf | NInf, NInf => PInf
  | PInf, NInf | NInf, PInf => NaN
  end.

(** numpy's true division: a zero divisor gives [inf], [-inf] or [nan]
    (with a warning), never an exception. *)
Definition ndiv (x y : num) : num :=
  match x, y with
  | NaN, _ | _, NaN => NaN
  | Fin a, Fin b =>
      if Qceqb b 0 then
        if Qceqb a 0 then NaN else inf_of_sign (Qcltb 0 a)
      else Fin (a / b)
  | Fin _, _ => Fin 0
  | PInf, Fin b => inf_of_sign (Qcleb 0 b)
  | NInf, Fin b => inf_of_sign (Qcltb b 0)
  | _, _ => NaN
  end.

(** ** Python and numpy primitives used by the routes *)

(** Truth value of a Python number: zero is false; [nan] and the
    infinities are true. *)
Definition truthy (x : num) : bool :=
  match x with
  | Fin a => negb (Qceqb a 0)
  | _ => true
  end.

(** Truth value of a nullable column or of [dict.get]: [None] is false. *)
Definition truthy_opt (o : option num) : bool :=
  match o with
  | None => false
  | Some x => truthy x
  end.

(** [o or d]: the left operand when it is true, else the right one. *)
Definition py_or (o : option num) (d : num) : num :=
  match o with
  | Some x => if truthy x then x else d
  | None => d
  end.

(** The builtin [min(a, b)]: [b] only when [b < a]. *)
Definition py_min (a b : num) : num := if nltb b a then b else a.

(** The builtin [sum] of a generator of floats: starts from the int [0]
    and adds from the left. *)
Definition py_sum (l : list num) : num := foldl nadd (Fin 0) l.

(** The builtin [sum] over finite values. *)
Definition py_sum_fin (l : list Qc) : Qc := foldl Qcplus 0 l.

(** The builtin [abs] on a finite value. *)
Definition py_abs (x : Qc) : Qc := if Qcltb x 0 then - x else x.

(** The integer nearest to [q], ties to the even one. *)
Definition round_half_even (q : Qc) : Z :=
  let f := Qfloor q in
  let r := q - of_Z f in
  if Qcltb r (frac 1 2) then f
  else if Qcltb (frac 1 2) r then (f + 1)%Z
  else if Z.even f then f else (f + 1)%Z.

(** The builtin [round(x, ndigits)]. *)
Definition py_round_fin (q : Qc) (ndigits : nat) : Qc :=
  let s := of_Z (10 ^ Z.of_nat ndigits) in
  of_Z (round_half_even (q * s)) / s.

Definition py_round (x : num) (ndigits : nat) : num :=
  match x with
  | Fin q => Fin (py_round_fin q ndigits)
  | _ => x
  end.

(** [np.array(values)] of a column of finite values. *)
Definition np_array (values : list Qc) : list num := Fin <$> values.

(** [np.clip(a, lo, hi)] on one element: [minimum(maximum(a, lo), hi)];
    a [nan] stays a [nan]. *)
Definition np_clip1 (lo hi : Qc) (x : num) : num :=
  match x with
  | NaN => NaN
  | _ => if nltb x lo then Fin lo else if nltb hi x then Fin hi else x
  end.

Definition np_clip (a : list num) (lo hi : Qc) : list num :=
  np_clip1 lo hi <$> a.

(** [np.mean(a)]: the sum over the number of elements; [nan] on an empty
    array. *)
Definition np_mean (a : list num) : num :=
  ndiv (py_sum a) (Fin (of_Z (Z.of_nat (length a)))).

(** A stable sort on a numeric key, standing for [order_by(column)]. *)
Fixpoint insert_by {A} (key : A → Qc) (x : A) (l : list A) : list A :=
  match l with
  | [] => [x]
  | y :: l' =>
      if Qcleb (key x) (key y) then x :: l else y :: insert_by key x l'
  end.

Definition order_by {A} (key : A → Qc) (l : list A) : list A :=
  foldr (insert_by key) [] l.

(** ** The models *)

(** [app/models/well.py]: the columns the routes below read. *)
Module Well.
Record t := mk { id : Z; user_id : Z; name : string }.
End Well.

(** [app/models/log.py]: one measurement of one curve. *)
Module WellLog.
Record t := mk {
  well_id : Z;
  log_type : string;
  depth : Qc;
  value : Qc
}.
End WellLog.

(** [app/models/petrophysics.py]: the parameters of one zone.  The nullable
    float columns are [option num]; the identifier, the notes and the
    timestamps, which no modelled route reads, are left out. *)
Module Petrophysics.
Record t := mk {
  well_id : Z;
  depth_from : Qc;
  depth_to : Qc;
  porosity : option num;
  porosity_effective : option num;
  permeability : option num;
  saturation_water : option num;
  saturation_oil : option num;
  saturation_gas : option num;
  vshale : option num;
  lithology : option string;
  zone_type : option string;
  calculated_by : string
}.

Global Instance eq_dec : EqDecision t.
Proof. solve_decision. Defined.

(** The [thickness] property. *)
Definition thickness (self : t) : Qc := depth_to self - depth_from self.

(** The [is_reservoir] property:
    [if self.porosity and self.vshale and self.saturation_water:
       return porosity > 0.10 and vshale < 0.40 and saturation_water < 0.60]
    and [False] otherwise. *)
Definition is_reservoir (self : t) : bool :=
  match porosity self, vshale self, saturation_water self with
  | Some phi, Some vsh, Some sw =>
      if truthy phi && truthy vsh && truthy sw then
        ngtb phi (frac 10 100) && nltb vsh (frac 40 100)
          && nltb sw (frac 60 100)
      else false
  | _, _, _ => false
  end.
End Petrophysics.

(** ** The database *)

Record Database := mkDatabase {
  wells : list Well.t;
  well_logs : list WellLog.t;
  petrophysics : list Petrophysics.t
}.

(** [Well.query.filter_by(id=well_id, user_id=user_id).first()]. *)
Definition query_well (db : Database) (well_id user_id : Z) : option Well.t :=
  head (filter (λ w, Well.id w = well_id ∧ Well.user_id w = user_id) (wells db)).

(** [WellLog.query.filter_by(well_id=well_id, log_type=log_type)
      .filter(WellLog.depth >= depth_from).filter(WellLog.depth <= depth_to)
      .order_by(WellLog.depth).all()]. *)
Definition query_logs (db : Database) (well_id : Z) (log_type : string)
    (depth_from depth_to : Qc) : list WellLog.t :=
  order_by WellLog.depth
    (filter (λ l, depth_from ≤ WellLog.depth l ∧ WellLog.depth l ≤ depth_to)
       (filter (λ l, WellLog.well_id l = well_id ∧ WellLog.log_type l = log_type)
          (well_logs db))).

(** [Petrophysics.query.filter_by(well_id=well_id)
      .order_by(Petrophysics.depth_from).all()]. *)
Definition query_zones (db : Database) (well_id : Z) : list Petrophysics.t :=
  order_by Petrophysics.depth_from
    (filter (λ z, Petrophysics.well_id z = well_id) (petrophysics db)).

(** [db.session.add(petro); db.session.commit()]. *)
Definition session_add (db : Database) (petro : Petrophysics.t) : Database :=
  {| wells := wells db;
     well_logs := well_logs db;
     petrophysics := petrophysics db ++ [petro] |}.

(** ** [app/routes/analysis.py] *)

(** One entry of the [logs] dictionary of [calculate_petrophysics]. *)
Record LogData := mkLogData { depths : list Qc; values : list Qc }.

(** The loop that fills [logs]: a curve is entered only when the query
    returned at least one sample. *)
Definition collect_logs (db : Database) (well_id : Z)
    (depth_from depth_to : Qc) : gmap string LogData :=
  foldl
    (λ (logs : gmap string LogData) (log_type : string),
       let log_data := query_logs db well_id log_type depth_from depth_to in
       match log_data with
       | [] => logs
       | _ =>
           <[log_type := {| depths := WellLog.depth <$> log_data;
                            values := WellLog.value <$> log_data |}]> logs
       end)
    ∅ ["GR"; "DENS"; "NEUT"; "RESIS"].

(** The calibration constants, read from the body with their defaults:
    [data.get('gr_clean', 20)], [data.get('gr_shale', 120)],
    [data.get('rho_matrix', 2.65)], [data.get('rho_fluid', 1.0)]. *)
Definition gr_clean_of (data : gmap string Qc) : Qc :=
  default (of_Z 20) (data !! "gr_clean").
Definition gr_shale_of (data : gmap string Qc) : Qc :=
  default (of_Z 120) (data !! "gr_shale").
Definition rho_matrix_of (data : gmap string Qc) : Qc :=
  default (frac 265 100) (data !! "rho_matrix").
Definition rho_fluid_of (data : gmap string Qc) : Qc :=
  default (of_Z 1) (data !! "rho_fluid").

(** The zone type, from the mean clay volume and the water saturation:
    [zone_type = 'shale'; if vshale_mean < 0.3: if saturation_water and
     saturation_water < 0.5: 'reservoir' else: 'water_bearing']. *)
Definition classify_zone (vshale_mean : num) (saturation_water : option num)
    : string :=
  if nltb vshale_mean (frac 3 10) then
    match saturation_water with
    | Some sw =>
        if truthy sw && nltb sw (frac 5 10) then "reservoir"
        else "water_bearing"
    | None => "water_bearing"
    end
  else "shale".

(** The messages of [_get_recommendations]. *)
Inductive Advice : Type :=
  | ClayZone        (* "Zone argileuse - faible potentiel reservoir" *)
  | CleanZone       (* "Zone propre - bon potentiel reservoir" *)
  | GoodPorosity    (* "Bonne porosite effective (>15%)" *)
  | LowPorosity     (* "Porosite faible - reservoir marginal" *)
  | LowSaturation   (* "Saturation en eau faible - ..." *)
  | HighSaturation. (* "Saturation en eau elevee - ..." *)

(** One [if x: if x > hi: ... elif x < lo: ...] block of
    [_get_recommendations]; the saturation block tests [<] first. *)
Definition advise (o : option num) (above : Qc) (a_above : Advice)
    (below : Qc) (a_below : Advice) (upper_first : bool) : list Advice :=
  match o with
  | Some x =>
      if truthy x then
        if upper_first then
          if ngtb x above then [a_above]
          else if nltb x below then [a_below] else []
        else
          if nltb x below then [a_below]
          else if ngtb x above then [a_above] else []
      else []
  | None => []
  end.

Definition _get_recommendations (petro : Petrophysics.t) : list Advice :=
  advise (Petrophysics.vshale petro) (frac 5 10) ClayZone
         (frac 2 10) CleanZone true
  ++ advise (Petrophysics.porosity_effective petro) (frac 15 100) GoodPorosity
         (frac 8 100) LowPorosity true
  ++ advise (Petrophysics.saturation_water petro) (frac 7 10) HighSaturation
         (frac 4 10) LowSaturation false.

(** The [interpretation] object of the 201 response. *)
Record Interpretation := mkInterpretation {
  interp_zone_type : string;
  interp_is_reservoir : bool;
  interp_recommendations : list Advice
}.

(** The responses of [calculate_petrophysics]: 404, 400 with its error
    message, 201 with the stored zone. *)
Inductive Response : Type :=
  | NotFound
  | BadRequest (error : string)
  | Created (petro : Petrophysics.t) (interpretation : Interpretation).

Section Analysis.

(** The float power [x ** y] of Python and numpy on finite arguments: a
    library primitive, with irrational results in general, kept
    abstract. *)
Variable power : Qc → Qc → Qc.

(** [x ** y] on floats: [1 ** nan] and [nan ** 0] are [1]; another
    [nan] argument gives [nan]; an infinite exponent or base follows the
    magnitude of the base or the sign of the exponent, with the parity
    rule for [-inf] left out. *)
Definition npow (x y : num) : num :=
  match x, y with
  | Fin a, Fin b => Fin (power a b)
  | Fin a, NaN => if Qceqb a 1 then Fin 1 else NaN
  | NaN, Fin b => if Qceqb b 0 then Fin 1 else NaN
  | NaN, _ => NaN
  | _, NaN => NaN
  | Fin a, PInf =>
      if Qceqb (py_abs a) 1 then Fin 1
      else if Qcltb (py_abs a) 1 then Fin 0 else PInf
  | Fin a, NInf =>
      if Qceqb (py_abs a) 1 then Fin 1
      else if Qcltb (py_abs a) 1 then PInf else Fin 0
  | _, Fin b =>
      if Qceqb b 0 then Fin 1 else if Qcltb 0 b then PInf else Fin 0
  | _, PInf => PInf
  | _, NInf => Fin 0
  end.

(** Clay volume from the gamma ray, Larionov's formula for old rocks:
    [igr = (gr_values - gr_clean) / (gr_shale - gr_clean)],
    [igr = np.clip(igr, 0, 1)], [vshale = 0.33 * (2**(2 * igr) - 1)],
    [vshale = np.clip(vshale, 0, 1)], [float(np.mean(vshale))]. *)
Definition igr_of (gr_values : list num) (gr_clean gr_shale : Qc)
    : list num :=
  np_clip
    ((λ g, ndiv (nsub g gr_clean) (Fin (gr_shale - gr_clean))) <$> gr_values)
    0 1.

Definition vshale_of (igr : list num) : list num :=
  np_clip
    ((λ i, nmul (frac 33 100) (nsub (npow (Fin 2) (nmul (Fin 2) i)) (Fin 1)))
       <$> igr)
    0 1.

Definition vshale_mean_of (gr_values : list num) (gr_clean gr_shale : Qc)
    : num :=
  np_mean (vshale_of (igr_of gr_values gr_clean gr_shale)).

(** Density porosity:
    [porosity_dens = (rho_matrix - dens_values) / (rho_matrix - rho_fluid)],
    [np.clip(porosity_dens, 0, 0.5)], [float(np.mean(porosity_dens))]. *)
Definition porosity_dens_of (dens_values : list num)
    (rho_matrix rho_fluid : Qc) : list num :=
  np_clip
    ((λ d, ndiv (nsub rho_matrix d) (Fin (rho_matrix - rho_fluid)))
       <$> dens_values)
    0 (frac 5 10).

Definition porosity_of (dens_values : list num) (rho_matrix rho_fluid : Qc)
    : num :=
  np_mean (porosity_dens_of dens_values rho_matrix rho_fluid).

(** Water saturation, simplified Archie formula, for a true
    [porosity_effective] and resistivity samples. *)
Definition archie (porosity_effective : num) (rt_values : list num)
    : option num :=
  let rw := frac 1 10 in
  let a := of_Z 1 in
  let m := of_Z 2 in
  let n := of_Z 2 in
  let rt_mean := np_mean rt_values in
  if ngtb porosity_effective (Fin 0) && ngtb rt_mean (Fin 0) then
    let sw_n :=
      ndiv (Fin (a * rw)) (nmul (npow porosity_effective (Fin m)) rt_mean) in
    Some (py_min (Fin 1) (npow sw_n (Fin (1 / n))))
  else None.

(** The computation of [calculate_petrophysics] once the well and the
    two depths are known: from the queries to the commit. *)
Definition calculate_zone (db : Database) (well_id : Z)
    (depth_from depth_to : Qc) (data : gmap string Qc)
    : Response * Database :=
  let gr_clean := gr_clean_of data in
  let gr_shale := gr_shale_of data in
  let rho_matrix := rho_matrix_of data in
  let rho_fluid := rho_fluid_of data in
  let logs := collect_logs db well_id depth_from depth_to in
  match logs !! "GR" with
  | None => (BadRequest "Log GR requis pour le calcul", db)
  | Some gr =>
      let gr_values := np_array (values gr) in
      let vshale_mean := vshale_mean_of gr_values gr_clean gr_shale in
      let porosity :=
        match logs !! "DENS" with
        | Some dens =>
            Some (porosity_of (np_array (values dens)) rho_matrix rho_fluid)
        | None => None
        end in
      let porosity_effective :=
        match porosity with
        | Some phi => Some (nmul phi (nsub (Fin 1) vshale_mean))
        | None => None
        end in
      let saturation_water :=
        match logs !! "RESIS", porosity_effective with
        | Some resis, Some phie =>
            if truthy phie then archie phie (np_array (values resis))
            else None
        | _, _ => None
        end in
      let zone_type := classify_zone vshale_mean saturation_water in
      let petro :=
        {| Petrophysics.well_id := well_id;
           Petrophysics.depth_from := depth_from;
           Petrophysics.depth_to := depth_to;
           Petrophysics.porosity := porosity;
           Petrophysics.porosity_effective := porosity_effective;
           Petrophysics.permeability := None;
           Petrophysics.saturation_water := saturation_water;
           Petrophysics.saturation_oil :=
             match saturation_water with
             | Some sw => if truthy sw then Some (nsub (Fin 1) sw) else None
             | None => None
             end;
           Petrophysics.saturation_gas := None;
           Petrophysics.vshale := Some vshale_mean;
           Petrophysics.lithology := None;
           Petrophysics.zone_type := Some zone_type;
           Petrophysics.calculated_by := "auto" |} in
      (Created petro
         {| interp_zone_type := zone_type;
            interp_is_reservoir := Petrophysics.is_reservoir petro;
            interp_recommendations := _get_recommendations petro |},
       session_add db petro)
  end.

(** The route [POST /well/<well_id>/calculate], for the authenticated
    user [user_id] and the JSON body [data]. *)
Definition calculate_petrophysics (db : Database) (user_id well_id : Z)
    (data : gmap string Qc) : Response * Database :=
  match query_well db well_id user_id with
  | None => (NotFound, db)
  | Some well =>
      match data !! "depth_from", data !! "depth_to" with
      | Some depth_from, Some depth_to =>
          if negb (truthy (Fin depth_from)) || negb (truthy (Fin depth_to))
          then (BadRequest "depth_from et depth_to sont requis", db)
          else calculate_zone db well_id depth_from depth_to data
      | _, _ => (BadRequest "depth_from et depth_to sont requis", db)
      end
  end.

End Analysis.

(** ** [app/routes/reports.py] *)

(** [[z for z in zones if z.zone_type == label]]. *)
Definition zones_of_type (label : string) (zones : list Petrophysics.t)
    : list Petrophysics.t :=
  filter (λ z, Petrophysics.zone_type z = Some label) zones.

(** The synthesis of [get_summary], by the names of its local variables. *)
Definition total_thickness (zones : list Petrophysics.t) : Qc :=
  py_sum_fin
    ((λ z, Petrophysics.depth_to z - Petrophysics.depth_from z) <$> zones).

Definition reservoir_thickness (zones : list Petrophysics.t) : Qc :=
  total_thickness (zones_of_type "reservoir" zones).

(** [reservoir_thickness / total_thickness if total_thickness > 0 else 0]. *)
Definition net_to_gross (zones : list Petrophysics.t) : Qc :=
  if Qcltb 0 (total_thickness zones)
  then reservoir_thickness zones / total_thickness zones
  else 0.

(** [sum(column(z) or 0 for z in reservoir_zones) / len(reservoir_zones)]
    under [if reservoir_zones:], and the initial [0] otherwise. *)
Definition average_over (column : Petrophysics.t → option num)
    (reservoir_zones : list Petrophysics.t) : num :=
  match reservoir_zones with
  | [] => Fin 0
  | _ =>
      ndiv (py_sum ((λ z, py_or (column z) (Fin 0)) <$> reservoir_zones))
           (Fin (of_Z (Z.of_nat (length reservoir_zones))))
  end.

Definition avg_porosity (zones : list Petrophysics.t) : num :=
  average_over Petrophysics.porosity_effective (zones_of_type "reservoir" zones).

Definition avg_sw (zones : list Petrophysics.t) : num :=
  average_over Petrophysics.saturation_water (zones_of_type "reservoir" zones).

(** The sentences of [_generate_interpretation], with the value each one
    prints. *)
Inductive Sentence : Type :=
  | NoReservoirZone
  | NtgExcellent (ntg : Qc)
  | NtgGood (ntg : Qc)
  | NtgLow (ntg : Qc)
  | PorosityHigh (avg_phi : num)
  | PorosityAcceptable (avg_phi : num)
  | PorosityLow (avg_phi : num)
  | SaturationLow (avg_sw : num)
  | SaturationModerate (avg_sw : num)
  | SaturationHigh (avg_sw : num).

Definition _generate_interpretation (reservoir_zones : list Petrophysics.t)
    (ntg : Qc) (avg_phi avg_sw : num) : list Sentence :=
  match reservoir_zones with
  | [] => [NoReservoirZone]
  | _ =>
      [if Qcltb (frac 5 10) ntg then NtgExcellent ntg
       else if Qcltb (frac 3 10) ntg then NtgGood ntg
       else NtgLow ntg]
      ++ (if truthy avg_phi && ngtb avg_phi (frac 15 100)
          then [PorosityHigh avg_phi]
          else if truthy avg_phi && ngtb avg_phi (frac 10 100)
          then [PorosityAcceptable avg_phi]
          else if truthy avg_phi then [PorosityLow avg_phi] else [])
      ++ (if truthy avg_sw && nltb avg_sw (frac 4 10)
          then [SaturationLow avg_sw]
          else if truthy avg_sw && nltb avg_sw (frac 6 10)
          then [SaturationModerate avg_sw]
          else if truthy avg_sw then [SaturationHigh avg_sw] else [])
  end.

(** The [analysis_summary] object of the summary. *)
Module Summary.
Record t := mk {
  total_zones : nat;
  reservoir_zones : nat;
  total_thickness : Qc;
  net_reservoir_thickness : Qc;
  net_to_gross : Qc;
  average_porosity : option num;
  average_water_saturation : option num;
  average_hydrocarbon_saturation : option num;
  interpretation : list Sentence
}.
End Summary.

(** [round(x, 3) if avg else None]. *)
Definition rounded_if (avg x : num) : option num :=
  if truthy avg then Some (py_round x 3) else None.

Definition analysis_summary (zones : list Petrophysics.t) : Summary.t :=
  let reservoir_zones := zones_of_type "reservoir" zones in
  {| Summary.total_zones := length zones;
     Summary.reservoir_zones := length reservoir_zones;
     Summary.total_thickness := py_round_fin (total_thickness zones) 1;
     Summary.net_reservoir_thickness :=
       py_round_fin (reservoir_thickness zones) 1;
     Summary.net_to_gross := py_round_fin (net_to_gross zones) 3;
     Summary.average_porosity :=
       rounded_if (avg_porosity zones) (avg_porosity zones);
     Summary.average_water_saturation :=
       rounded_if (avg_sw zones) (avg_sw zones);
     Summary.average_hydrocarbon_saturation :=
       rounded_if (avg_sw zones) (nsub (Fin 1) (avg_sw zones));
     Summary.interpretation :=
       _generate_interpretation reservoir_zones (net_to_gross zones)
         (avg_porosity zones) (avg_sw zones) |}.

(** The route [GET /well/<well_id>/summary]: [None] is the 404 answer.  The
    well and the log statistics of the answer, which do not depend on the
    zones, are left out. *)
Definition get_summary (db : Database) (user_id well_id : Z)
    : option Summary.t :=
  match query_well db well_id user_id with
  | None => None
  | Some well => Some (analysis_summary (query_zones db well_id))
  end.

(** A call either returns or raises. *)
Inductive outcome (A : Type) : Type :=
  | Returns (a : A)
  | Raises (exc : string).
Arguments Returns {A} a.
Arguments Raises {A} exc.

(** The recommendations of [_generate_recommendations], with the values
    each one prints. *)
Inductive Recommendation : Type :=
  | LaunchAnalysis
  | OptimalZone (depth_from depth_to : Qc) (phi_eff sw : num)
  | MultiZoneCompletion (count : nat)
  | WaterWarning (depth_from : Qc).

(** The builtin [max(iterable, key=...)]: the first element whose key no
    other exceeds; a later element replaces the current one only when its
    key is greater. *)
Fixpoint max_from {A} (key : A → num) (best : A) (l : list A) : A :=
  match l with
  | [] => best
  | x :: l' =>
      if ngtb (key x) (key best) then max_from key x l'
      else max_from key best l'
  end.

Definition py_max {A} (l : list A) (key : A → num) : option A :=
  match l with
  | [] => None
  | x :: l' => Some (max_from key x l')
  end.

(** The key of the best zone:
    [(z.porosity_effective or 0) * (1 - (z.saturation_water or 1))]. *)
Definition zone_score (z : Petrophysics.t) : num :=
  nmul (py_or (Petrophysics.porosity_effective z) (Fin 0))
       (nsub (Fin 1) (py_or (Petrophysics.saturation_water z) (Fin 1))).

Definition best_zone (reservoir_zones : list Petrophysics.t)
    : option Petrophysics.t :=
  py_max reservoir_zones zone_score.

(** The inner loop of the proximity check, for one water zone: the first
    reservoir zone within 20 m appends the warning and breaks. *)
Fixpoint scan_reservoirs (wz : Petrophysics.t)
    (reservoir_zones : list Petrophysics.t) : list Recommendation :=
  match reservoir_zones with
  | [] => []
  | rz :: rest =>
      if Qcltb (py_abs (Petrophysics.depth_from wz - Petrophysics.depth_to rz))
               (of_Z 20)
      then [WaterWarning (Petrophysics.depth_from wz)]
      else scan_reservoirs wz rest
  end.

(** [if water_zones and reservoir_zones: for wz in water_zones: ...]. *)
Definition proximity_warnings (water_zones reservoir_zones : list Petrophysics.t)
    : list Recommendation :=
  match water_zones, reservoir_zones with
  | _ :: _, _ :: _ =>
      mjoin ((λ wz, scan_reservoirs wz reservoir_zones) <$> water_zones)
  | _, _ => []
  end.

(** The line that prints the best zone: formatting an absent value with
    [:.1%] raises [TypeError]. *)
Definition optimal_zone_line (best : Petrophysics.t) : outcome Recommendation :=
  match Petrophysics.porosity_effective best, Petrophysics.saturation_water best with
  | Some phi_eff, Some sw =>
      Returns (OptimalZone (Petrophysics.depth_from best)
                 (Petrophysics.depth_to best) phi_eff sw)
  | _, _ => Raises "TypeError"
  end.

Definition _generate_recommendations (zones : list Petrophysics.t)
    : outcome (list Recommendation) :=
  let reservoir_zones := zones_of_type "reservoir" zones in
  match zones with
  | [] => Returns [LaunchAnalysis]
  | _ =>
      let water_zones := zones_of_type "water_bearing" zones in
      match best_zone reservoir_zones with
      | None => Returns (proximity_warnings water_zones reservoir_zones)
      | Some best =>
          match optimal_zone_line best with
          | Raises exc => Raises exc
          | Returns line =>
              Returns
                ([line]
                 ++ (if bool_decide (1 < length reservoir_zones)%nat
                     then [MultiZoneCompletion (length reservoir_zones)]
                     else [])
                 ++ proximity_warnings water_zones reservoir_zones)
          end
      end
  end.

(** The parts of [_build_report_data] that depend on the zones. *)
Record ReportData := mkReportData {
  zones_analyzed : nat;
  report_zones : list Petrophysics.t;
  recommendations : list Recommendation
}.

Definition _build_report_data (db : Database) (well : Well.t)
    : outcome ReportData :=
  let zones := query_zones db (Well.id well) in
  match _generate_recommendations zones with
  | Raises exc => Raises exc
  | Returns recs =>
      Returns {| zones_analyzed := length zones;
                 report_zones := zones;
                 recommendations := recs |}
  end.

(** ** The rules of the specification, in its own words *)

(** Zone classifier: shale when [vshale_mean >= 0.3]; else reservoir when
    the saturation is present and below 0.5; else water bearing. *)
Definition spec_zone_type (vshale_mean : Qc) (saturation_water : option num)
    : string :=
  if Qcleb (frac 3 10) vshale_mean then "shale"
  else
    match saturation_water with
    | Some sw => if nltb sw (frac 5 10) then "reservoir" else "water_bearing"
    | None => "water_bearing"
    end.

(** Reservoir-quality predicate: the three values present, porosity above
    0.10, clay volume below 0.40, water saturation below 0.60. *)
Definition spec_is_reservoir (z : Petrophysics.t) : bool :=
  match Petrophysics.porosity z, Petrophysics.vshale z,
        Petrophysics.saturation_water z with
  | Some phi, Some vsh, Some sw =>
      ngtb phi (frac 10 100) && nltb vsh (frac 40 100) && nltb sw (frac 60 100)
  | _, _, _ => false
  end.

(** Mean of a nullable column, an absent value counting as 0. *)
Definition mean_absent_as_zero (column : list (option num)) : num :=
  ndiv (py_sum (default (Fin 0) <$> column))
       (Fin (of_Z (Z.of_nat (length column)))).

(** Score of a reservoir zone: effective porosity (0 when absent) times
    one minus the water saturation (1 when absent). *)
Definition spec_zone_score (z : Petrophysics.t) : num :=
  nmul (default (Fin 0) (Petrophysics.porosity_effective z))
       (nsub (Fin 1) (default (Fin 1) (Petrophysics.saturation_water z))).

(** A water zone is close to a reservoir zone when its top is less than
    20 m from the base of the reservoir. *)
Definition near_reservoir (reservoir_zones : list Petrophysics.t)
    (wz : Petrophysics.t) : Prop :=
  Exists
    (λ rz, py_abs (Petrophysics.depth_from wz - Petrophysics.depth_to rz)
           < of_Z 20)
    reservoir_zones.

Global Instance near_reservoir_dec rzs wz : Decision (near_reservoir rzs wz).
Proof. unfold near_reservoir. apply _. Defined.

Definition is_water_warning (r : Recommendation) : bool :=
  match r with WaterWarning _ => true | _ => false end.

(** ** Concrete data *)

(** A rational stand-in for the float power, exact when the exponent is a
    natural number ([2 ** 0], [2 ** 2], [x ** 2]); the exponent is
    truncated otherwise. *)
Definition power_floor (x y : Qc) : Qc := x ^ Z.to_nat (Qfloor y).

Module Demo.

Definition well : Well.t := Well.mk 1 7 "HMD-101".

Definition sample (log_type : string) (depth : Z) (value : Qc) : WellLog.t :=
  WellLog.mk 1 log_type (of_Z depth) value.

(** A clean sand at 100 m: gamma ray at the clean-sand reading, density
    2.2 g/cm3, resistivity 50 ohm.m. *)
Definition db : Database :=
  {| wells := [well];
     well_logs := [sample "GR" 100 (of_Z 20); sample "DENS" 100 (frac 22 10);
                   sample "RESIS" 100 (of_Z 50)];
     petrophysics := [] |}.

(** The same well with the density sample at the matrix density. *)
Definition db_matrix : Database :=
  {| wells := [well];
     well_logs := [sample "GR" 100 (of_Z 60); sample "DENS" 100 (frac 265 100)];
     petrophysics := [] |}.

(** A well with density and resistivity but no gamma ray. *)
Definition db_no_gr : Database :=
  {| wells := [well];
     well_logs := [sample "DENS" 100 (frac 22 10); sample "RESIS" 100 (of_Z 50)];
     petrophysics := [] |}.

(** A well with the gamma ray only. *)
Definition db_gr_only : Database :=
  {| wells := [well];
     well_logs := [sample "GR" 100 (of_Z 20); sample "GR" 101 (of_Z 130)];
     petrophysics := [] |}.

Definition body (fields : list (string * Qc)) : gmap string Qc :=
  list_to_map fields.

Definition interval (a b : Z) : list (string * Qc) :=
  [("depth_from", of_Z a); ("depth_to", of_Z b)].

(** The interval [[90, 110]] with the default calibration. *)
Definition request : gmap string Qc := body (interval 90 110).

(** A request on the single depth 100. *)
Definition point_request : gmap string Qc := body (interval 100 100).

(** A request whose bounds are in the wrong order. *)
Definition inverted_request : gmap string Qc := body (interval 110 90).

(** A request without [depth_to]. *)
Definition open_request : gmap string Qc := body [("depth_from", of_Z 90)].

(** Both gamma-ray calibration readings at 20 API. *)
Definition equal_gr_request : gmap string Qc :=
  body (interval 90 110 ++ [("gr_clean", of_Z 20); ("gr_shale", of_Z 20)]).

(** Matrix and fluid densities both at 2.65 g/cm3. *)
Definition equal_rho_request : gmap string Qc :=
  body (interval 90 110
        ++ [("rho_matrix", frac 265 100); ("rho_fluid", frac 265 100)]).

(** A stored zone with the given interval, type and values. *)
Definition zone (a b : Z) (zone_type : string)
    (phi phi_eff sw vsh : option num) : Petrophysics.t :=
  {| Petrophysics.well_id := 1;
     Petrophysics.depth_from := of_Z a;
     Petrophysics.depth_to := of_Z b;
     Petrophysics.porosity := phi;
     Petrophysics.porosity_effective := phi_eff;
     Petrophysics.permeability := None;
     Petrophysics.saturation_water := sw;
     Petrophysics.saturation_oil := None;
     Petrophysics.saturation_gas := None;
     Petrophysics.vshale := vsh;
     Petrophysics.lithology := None;
     Petrophysics.zone_type := Some zone_type;
     Petrophysics.calculated_by := "manual" |}.

Definition pct (n : Z) : option num := Some (Fin (frac n 100)).

Definition shale_zone : Petrophysics.t :=
  zone 2800 2850 "shale" (pct 8) (pct 2) (pct 100) (pct 75).
Definition reservoir_zone : Petrophysics.t :=
  zone 2850 2920 "reservoir" (pct 18) (pct 16) (pct 35) (pct 12).
Definition reservoir_zone2 : Petrophysics.t :=
  zone 2960 3050 "reservoir" (pct 22) (pct 20) (pct 28) (pct 8).
Definition water_zone (top : Z) : Petrophysics.t :=
  zone top 3120 "water_bearing" (pct 19) (pct 16) (pct 85) (pct 15).

(** A clean, porous, hydrocarbon-bearing zone whose clay volume is
    exactly zero. *)
Definition clean_zone : Petrophysics.t :=
  zone 2850 2920 "reservoir" (pct 20) (pct 20) (pct 30) (pct 0).

(** A reservoir zone fully saturated with hydrocarbons. *)
Definition dry_zone : Petrophysics.t :=
  zone 2960 3050 "reservoir" (pct 30) (pct 30) (pct 0) (pct 10).

(** A reservoir zone of moderate quality. *)
Definition fair_zone : Petrophysics.t :=
  zone 2850 2920 "reservoir" (pct 12) (pct 10) (pct 50) (pct 15).

(** A thin reservoir zone of moderate quality below the water zone. *)
Definition thin_zone : Petrophysics.t :=
  zone 3120 3130 "reservoir" (pct 12) (pct 10) (pct 50) (pct 15).

(** The well with five zones stored: 290 m in all, 170 m of them in three
    reservoir zones. *)
Definition db_zones : Database :=
  {| wells := [well];
     well_logs := [];
     petrophysics := [shale_zone; reservoir_zone; reservoir_zone2;
                      water_zone 3050; thin_zone] |}.

End Demo.

(** ** Auxiliary notions for the proofs *)

(** [x] is [nan] or a finite value of [[lo, hi]]. *)
Definition bounded (lo hi : Qc) (x : num) : Prop :=
  match x with
  | Fin q => lo ≤ q ∧ q ≤ hi
  | NaN => True
  | _ => False
  end.

(** [x] is [nan] or the sum of [k] values of [[lo, hi]]. *)
Definition sum_bounded (lo hi : Qc) (k : nat) (x : num) : Prop :=
  bounded (of_Z (Z.of_nat k) * lo) (of_Z (Z.of_nat k) * hi) x.

(** What the loop of [calculate_petrophysics] enters in [logs] for the
    result of one query. *)
Definition log_entry (log_data : list WellLog.t) : option LogData :=
  match log_data with
  | [] => None
  | _ => Some {| depths := WellLog.depth <$> log_data;
                 values := WellLog.value <$> log_data |}
  end.

(** The depth test of the route: [not depth_from or not depth_to]. *)
Definition depth_missing (o : option Qc) : Prop := o = None ∨ o = Some 0.

Section ZoneComputed.

Variable power : Qc → Qc → Qc.

(** [petro] is the record [calculate_petrophysics] builds for the well
    [well_id], the interval [[depth_from, depth_to]] and the body
    [data], from the curves found in [db]. *)
Definition zone_computed (db : Database) (well_id : Z)
    (depth_from depth_to : Qc) (data : gmap string Qc)
    (petro : Petrophysics.t) : Prop :=
  ∃ gr : LogData,
    log_entry (query_logs db well_id "GR" depth_from depth_to) = Some gr ∧
    let vsh := vshale_mean_of power (np_array (values gr))
                 (gr_clean_of data) (gr_shale_of data) in
    let dens := log_entry (query_logs db well_id "DENS" depth_from depth_to) in
    let resis := log_entry (query_logs db well_id "RESIS" depth_from depth_to) in
    Petrophysics.well_id petro = well_id ∧
    Petrophysics.depth_from petro = depth_from ∧
    Petrophysics.depth_to petro = depth_to ∧
    Petrophysics.vshale petro = Some vsh ∧
    Petrophysics.porosity petro
    = (λ d, porosity_of (np_array (values d))
              (rho_matrix_of data) (rho_fluid_of data)) <$> dens ∧
    Petrophysics.porosity_effective petro
    = (λ phi, nmul phi (nsub (Fin 1) vsh)) <$> Petrophysics.porosity petro ∧
    Petrophysics.saturation_water petro
    = match resis, Petrophysics.porosity_effective petro with
      | Some r, Some phie =>
          if truthy phie then archie power phie (np_array (values r))
          else None
      | _, _ => None
      end ∧
    Petrophysics.zone_type petro
    = Some (classify_zone vsh (Petrophysics.saturation_water petro)).

End ZoneComputed.

(** ** The other routes of [app/routes/analysis.py] and [app/routes/reports.py] *)

(** [db.session.add(log)], as the import of a CSV file does for each of
    its values. *)
Definition session_add_log (db : Database) (log : WellLog.t) : Database :=
  {| wells := wells db;
     well_logs := well_logs db ++ [log];
     petrophysics := petrophysics db |}.

(** The route [GET /well/<well_id>/zones]: [None] is the 404 answer; the
    zones are answered field by field ([to_dict]), in the order of the
    query. *)
Definition get_zones (db : Database) (user_id well_id : Z)
    : option (list Petrophysics.t) :=
  match query_well db well_id user_id with
  | None => None
  | Some well => Some (query_zones db well_id)
  end.

(** [db.session.query(WellLog.log_type).filter_by(well_id=well_id)
      .distinct().all()], read for membership only. *)
Definition available_log_types (db : Database) (well_id : Z) : list string :=
  remove_dups
    (WellLog.log_type
       <$> filter (λ l, WellLog.well_id l = well_id) (well_logs db)).

(** The suggestions of [get_suggestions]: warning, action, info or
    success, with the count the last one prints. *)
Inductive Suggestion : Type :=
  | NoLogAvailable              (* warning: "Aucun log disponible. ..." *)
  | GammaRayAvailable           (* action: "Log GR disponible: ..." *)
  | CrossplotAvailable          (* action: "Logs DENS et NEUT disponibles: ..." *)
  | ResistivityAvailable        (* action: "Log Resistivite disponible: ..." *)
  | NoAnalysis                  (* info: "Aucune analyse petrophysique. ..." *)
  | ReservoirZonesFound (count : nat). (* success: "{n} zone(s) reservoir ..." *)

Global Instance Suggestion_eq_dec : EqDecision Suggestion.
Proof. solve_decision. Defined.

(** The route [GET /well/<well_id>/suggestions]: [None] is the 404
    answer. *)
Definition get_suggestions (db : Database) (user_id well_id : Z)
    : option (list Suggestion) :=
  match query_well db well_id user_id with
  | None => None
  | Some well =>
      let available_log_types := available_log_types db well_id in
      match available_log_types with
      | [] => Some [NoLogAvailable]
      | _ =>
          let zones :=
            filter (λ z, Petrophysics.well_id z = well_id) (petrophysics db) in
          let reservoir_zones :=
            filter (λ z, Petrophysics.well_id z = well_id
                         ∧ Petrophysics.zone_type z = Some "reservoir")
                   (petrophysics db) in
          Some
            ((if bool_decide ("GR" ∈ available_log_types)
              then [GammaRayAvailable] else [])
             ++ (if bool_decide ("DENS" ∈ available_log_types
                                 ∧ "NEUT" ∈ available_log_types)
                 then [CrossplotAvailable] else [])
             ++ (if bool_decide ("RESIS" ∈ available_log_types)
                 then [ResistivityAvailable] else [])
             ++ (if bool_decide (length zones = 0%nat) then [NoAnalysis]
                 else
                   match reservoir_zones with
                   | [] => []
                   | _ => [ReservoirZonesFound (length reservoir_zones)]
                   end))
      end
  end.

(** The answers of [generate_report]: 404, the HTML page or the JSON
    object, both rendered from the same report data. *)
Inductive ReportResponse : Type :=
  | ReportNotFound
  | ReportHtml (data : ReportData)
  | ReportJson (data : ReportData).

(** The route [GET /well/<well_id>], with its query parameter [format]
    ([request.args.get('format', 'json')]). *)
Definition generate_report (db : Database) (user_id well_id : Z)
    (format : option string) : outcome ReportResponse :=
  match query_well db well_id user_id with
  | None => Returns ReportNotFound
  | Some well =>
      let report_format := default "json" format in
      match _build_report_data db well with
      | Raises exc => Raises exc
      | Returns report_data =>
          if bool_decide (report_format = "html")
          then Returns (ReportHtml report_data)
          else Returns (ReportJson report_data)
      end
  end.

(** Every reservoir zone of the table carries the two values the report
    prints for its best zone. *)
Definition reservoirs_printable (zones : list Petrophysics.t) : Prop :=
  Forall
    (λ z, Petrophysics.zone_type z = Some "reservoir" →
          is_Some (Petrophysics.porosity_effective z)
          ∧ is_Some (Petrophysics.saturation_water z))
    zones.

(** The samples a computation of the well [well_id] over
    [[depth_from, depth_to]] reads: gamma ray, density or resistivity of
    that well in that interval. *)
Definition sample_read (well_id : Z) (depth_from depth_to : Qc)
    (l : WellLog.t) : Prop :=
  WellLog.well_id l = well_id
  ∧ WellLog.log_type l ∈ ["GR"; "DENS"; "RESIS"]
  ∧ depth_from ≤ WellLog.depth l ∧ WellLog.depth l ≤ depth_to.

(** The computation of the clean sand of [Demo.db] over [[90, 110]], with
    the default calibration. *)
Definition demo_computation : Response * Database :=
  calculate_petrophysics power_floor Demo.db 7 1 Demo.request.

(** A second stand-in for the float power, which takes a square root by
    five steps of Newton's iteration from 1, and is [power_floor] for the
    other exponents. *)
Definition newton_sqrt (x : Qc) : Qc :=
  Nat.iter 5 (λ y, (y + x / y) / of_Z 2) 1.

Definition power_approx (x y : Qc) : Qc :=
  if Qceqb y (frac 1 2) then newton_sqrt x else power_floor x y.

(** A third stand-in, which has [0 ** y = 0] for a positive exponent as
    the floats do, and is [power_approx] on the other bases. *)
Definition power_root (x y : Qc) : Qc :=
  if Qceqb x 0 then (if Qcltb 0 y then 0 else 1) else power_approx x y.

(** The same computation with [power_approx]: the zone is a reservoir. *)
Definition demo_reservoir_computation : Response * Database :=
  calculate_petrophysics power_approx Demo.db 7 1 Demo.request.

(** The computation on the well whose density sample is at the matrix
    density. *)
Definition demo_matrix_computation : Response * Database :=
  calculate_petrophysics power_floor Demo.db_matrix 7 1 Demo.request.

(** * Properties *)

(** ** Deciding closed statements *)

Ltac by_compute := apply (bool_decide_unpack _); vm_compute; exact I.

(** ** Comparisons on finite values *)

Lemma Qcltb_lt (x y : Qc) : Qcltb x y = true ↔ x < y.
Proof. unfold Qcltb. apply bool_decide_eq_true. Qed.

Lemma Qcltb_ge (x y : Qc) : Qcltb x y = false ↔ y ≤ x.
Proof.
  unfold Qcltb. rewrite bool_decide_eq_false. split.
  - apply Qcnot_lt_le.
  - apply Qcle_not_lt.
Qed.

Lemma Qcleb_le (x y : Qc) : Qcleb x y = true ↔ x ≤ y.
Proof. unfold Qcleb. apply bool_decide_eq_true. Qed.

Lemma Qcleb_gt (x y : Qc) : Qcleb x y = false ↔ y < x.
Proof.
  unfold Qcleb. rewrite bool_decide_eq_false. split.
  - apply Qcnot_le_lt.
  - apply Qclt_not_le.
Qed.

Lemma Qceqb_eq (x y : Qc) : Qceqb x y = true ↔ x = y.
Proof. unfold Qceqb. apply bool_decide_eq_true. Qed.

Lemma Qceqb_neq (x y : Qc) : Qceqb x y = false ↔ x ≠ y.
Proof. unfold Qceqb. apply bool_decide_eq_false. Qed.

(** ** The reservoir-quality predicate *)

(** The property never holds where the rule of the specification fails. *)
Lemma is_reservoir_sound (z : Petrophysics.t) :
  Petrophysics.is_reservoir z = true → spec_is_reservoir z = true.
Proof.
  unfold Petrophysics.is_reservoir, spec_is_reservoir.
  destruct (Petrophysics.porosity z), (Petrophysics.vshale z),
    (Petrophysics.saturation_water z); try done.
  by destruct (truthy n && truthy n0 && truthy n1).
Qed.

(** On values that are all different from zero the two agree. *)
Lemma is_reservoir_nonzero (z : Petrophysics.t) :
  truthy_opt (Petrophysics.vshale z) = true →
  truthy_opt (Petrophysics.saturation_water z) = true →
  Petrophysics.is_reservoir z = spec_is_reservoir z.
Proof.
  unfold Petrophysics.is_reservoir, spec_is_reservoir.
  destruct (Petrophysics.porosity z) as [phi|],
    (Petrophysics.vshale z) as [vsh|],
    (Petrophysics.saturation_water z) as [sw|]; simpl; try done.
  intros -> ->. rewrite !andb_true_r.
  destruct (truthy phi) eqn:Hphi; [done|].
  destruct phi as [q| | |]; try done. simpl in Hphi.
  apply negb_false_iff, Qceqb_eq in Hphi as ->. by vm_compute.
Qed.

(** C5. For a zone record the reservoir-quality property should hold
    exactly when porosity, clay volume and water saturation are present
    with porosity > 0.10, vshale < 0.40 and saturation_water < 0.60.  On a
    zone with porosity 0.20, water saturation 0.30 and a clay volume of
    exactly 0, the rule holds but [is_reservoir] answers [False]: its
    guard [if self.porosity and self.vshale and self.saturation_water]
    takes the zero for an absent value. *)
Theorem C5_is_reservoir_zero_clay :
  Petrophysics.vshale Demo.clean_zone = Some (Fin 0)
  ∧ spec_is_reservoir Demo.clean_zone = true
  ∧ Petrophysics.is_reservoir Demo.clean_zone = false.
Proof. repeat split; first [by vm_compute | by_compute]. Qed.

(** ** Arithmetic on canonical rationals, through [Q] *)

Lemma Qc_le_Q (x y : Qc) : x ≤ y ↔ (x <= y)%Q.
Proof. reflexivity. Qed.

Lemma Qc_lt_Q (x y : Qc) : x < y ↔ (x < y)%Q.
Proof. reflexivity. Qed.

Lemma Qc_eq_Q (x y : Qc) : x = y ↔ (x == y)%Q.
Proof. split; [intros ->; reflexivity | apply Qc_is_canon]. Qed.

Lemma this_plus (x y : Qc) : (this (x + y) == this x + this y)%Q.
Proof. unfold Qcplus, Q2Qc; simpl. apply Qred_correct. Qed.

Lemma this_mult (x y : Qc) : (this (x * y) == this x * this y)%Q.
Proof. unfold Qcmult, Q2Qc; simpl. apply Qred_correct. Qed.

Lemma this_opp (x : Qc) : (this (- x) == - this x)%Q.
Proof. unfold Qcopp, Q2Qc; simpl. apply Qred_correct. Qed.

Lemma this_minus (x y : Qc) : (this (x - y) == this x - this y)%Q.
Proof. unfold Qcminus. rewrite this_plus, this_opp. reflexivity. Qed.

Lemma this_inv (x : Qc) : (this (/ x) == / this x)%Q.
Proof. unfold Qcinv, Q2Qc; simpl. apply Qred_correct. Qed.

Lemma this_div (x y : Qc) : (this (x / y) == this x / this y)%Q.
Proof. unfold Qcdiv. rewrite this_mult, this_inv. reflexivity. Qed.

Lemma this_of_Z (n : Z) : (this (of_Z n) == inject_Z n)%Q.
Proof. unfold of_Z, Q2Qc; simpl. apply Qred_correct. Qed.

Lemma this_frac (n : Z) (d : positive) : (this (frac n d) == n # d)%Q.
Proof. unfold frac, Q2Qc; simpl. apply Qred_correct. Qed.

Lemma this_Q2Qc (q : Q) : (this (Q2Qc q) == q)%Q.
Proof. apply Qred_correct. Qed.

(** Moves a goal and its hypotheses from [Qc] to [Q], where [lra] and
    [nra] apply. *)
Ltac qc2q :=
  rewrite ?Qc_le_Q, ?Qc_lt_Q, ?Qc_eq_Q in *;
  repeat (rewrite ?this_plus, ?this_minus, ?this_mult, ?this_opp, ?this_div,
            ?this_inv, ?this_of_Z, ?this_frac, ?this_Q2Qc in * );
  simpl this in *.

Lemma of_Z_succ (k : nat) : of_Z (Z.of_nat (S k)) = of_Z (Z.of_nat k) + 1.
Proof.
  qc2q. rewrite Nat2Z.inj_succ. unfold Z.succ. rewrite inject_Z_plus.
  change (inject_Z 1) with 1%Q. lra.
Qed.

Lemma of_Z_nat_nonneg (k : nat) : 0 ≤ of_Z (Z.of_nat k).
Proof.
  qc2q. change 0%Q with (inject_Z 0). rewrite <- Zle_Qle. lia.
Qed.

Lemma of_Z_nat_pos (k : nat) : (0 < k)%nat → 0 < of_Z (Z.of_nat k).
Proof.
  intros Hk. qc2q. change 0%Q with (inject_Z 0). rewrite <- Zlt_Qlt. lia.
Qed.

(** ** Ranges of clipped arrays, of their sums and of their means *)

Lemma np_clip1_bounded (lo hi : Qc) (x : num) :
  lo ≤ hi → bounded lo hi (np_clip1 lo hi x).
Proof.
  intros Hle. destruct x as [q| | |]; simpl; try done.
  destruct (Qcltb q lo) eqn:H1; simpl.
  - split; [apply Qcle_refl | done].
  - destruct (Qcltb hi q) eqn:H2; simpl.
    + split; [done | apply Qcle_refl].
    + apply Qcltb_ge in H1, H2. done.
Qed.

Lemma np_clip1_finite (lo hi : Qc) (x : num) :
  is_nan x = false → is_finite (np_clip1 lo hi x) = true.
Proof.
  destruct x as [q| | |]; simpl; try done.
  intros _. destruct (Qcltb q lo); [done|]. by destruct (Qcltb hi q).
Qed.

Lemma np_clip_bounded (lo hi : Qc) (a : list num) :
  lo ≤ hi → Forall (bounded lo hi) (np_clip a lo hi).
Proof.
  intros Hle. unfold np_clip. apply Forall_fmap, Forall_true.
  intros x. by apply np_clip1_bounded.
Qed.

Lemma nadd_sum_bounded (lo hi : Qc) (k : nat) (acc x : num) :
  sum_bounded lo hi k acc → bounded lo hi x →
  sum_bounded lo hi (S k) (nadd acc x).
Proof.
  unfold sum_bounded. rewrite of_Z_succ.
  destruct acc as [a| | |], x as [q| | |]; simpl; try done.
  intros [H1 H2] [H3 H4]. split; qc2q; lra.
Qed.

Lemma foldl_nadd_bounded (lo hi : Qc) (l : list num) :
  Forall (bounded lo hi) l →
  ∀ (k : nat) (acc : num), sum_bounded lo hi k acc →
    sum_bounded lo hi (k + length l) (foldl nadd acc l).
Proof.
  induction 1 as [|x l Hx _ IH]; intros k acc Hacc; simpl.
  - by rewrite Nat.add_0_r.
  - replace (k + S (length l))%nat with (S k + length l)%nat by lia.
    apply IH. by apply nadd_sum_bounded.
Qed.

Lemma py_sum_bounded (lo hi : Qc) (l : list num) :
  Forall (bounded lo hi) l → sum_bounded lo hi (length l) (py_sum l).
Proof.
  intros Hl. apply (foldl_nadd_bounded lo hi l Hl 0 (Fin 0)).
  unfold sum_bounded. change (of_Z (Z.of_nat 0)) with (Q2Qc 0).
  rewrite !Qcmult_0_l. split; apply Qcle_refl.
Qed.

Lemma Qc_div_bounds (lo hi s n : Qc) :
  0 < n → n * lo ≤ s → s ≤ n * hi → lo ≤ s / n ∧ s / n ≤ hi.
Proof.
  intros Hn H1 H2. qc2q. split.
  - apply Qle_shift_div_l; [done | lra].
  - apply Qle_shift_div_r; [done | lra].
Qed.

Lemma np_mean_bounded (lo hi : Qc) (l : list num) :
  l ≠ [] → Forall (bounded lo hi) l → bounded lo hi (np_mean l).
Proof.
  intros Hne Hl. unfold np_mean.
  pose proof (py_sum_bounded lo hi l Hl) as Hs. unfold sum_bounded in Hs.
  assert (0 < of_Z (Z.of_nat (length l))) as Hn.
  { apply of_Z_nat_pos. destruct l; [done | simpl; lia]. }
  destruct (py_sum l) as [s| | |]; simpl in *; try done.
  assert (Qceqb (of_Z (Z.of_nat (length l))) 0 = false) as ->.
  { apply Qceqb_neq. intros Heq. rewrite Heq in Hn. by apply Qclt_not_eq in Hn. }
  destruct Hs as [H1 H2]. by apply Qc_div_bounds.
Qed.

Lemma foldl_nadd_finite (l : list num) :
  Forall (λ x, is_finite x = true) l →
  ∀ acc, is_finite acc = true → is_finite (foldl nadd acc l) = true.
Proof.
  induction 1 as [|x l Hx _ IH]; intros acc Hacc; simpl; [done|].
  apply IH. by destruct acc, x.
Qed.

Lemma np_mean_finite (l : list num) :
  l ≠ [] → Forall (λ x, is_finite x = true) l → is_finite (np_mean l) = true.
Proof.
  intros Hne Hl. unfold np_mean, py_sum.
  pose proof (foldl_nadd_finite l Hl (Fin 0) eq_refl) as Hs.
  destruct (foldl nadd (Fin 0) l) as [s| | |]; simpl in *; try done.
  assert (Qceqb (of_Z (Z.of_nat (length l))) 0 = false) as ->; [|done].
  apply Qceqb_neq. intros Heq.
  assert (0 < of_Z (Z.of_nat (length l))) as Hn.
  { apply of_Z_nat_pos. destruct l; [done | simpl; lia]. }
  rewrite Heq in Hn. by apply Qclt_not_eq in Hn.
Qed.

Lemma bounded_finite (lo hi : Qc) (x : num) :
  bounded lo hi x → is_finite x = true → ∃ q, x = Fin q ∧ lo ≤ q ∧ q ≤ hi.
Proof. destruct x as [q| | |]; simpl; try done. intros H _. by exists q. Qed.

(** ** The [logs] dictionary *)

(** A curve of the loop is in [logs] exactly when its query found a
    sample. *)
Lemma collect_logs_lookup (db : Database) (well_id : Z) (depth_from depth_to : Qc)
    (log_type : string) :
  log_type ∈ ["GR"; "DENS"; "NEUT"; "RESIS"] →
  collect_logs db well_id depth_from depth_to !! log_type
  = log_entry (query_logs db well_id log_type depth_from depth_to).
Proof.
  intros Hin. unfold collect_logs, log_entry. simpl.
  destruct (query_logs db well_id "GR" depth_from depth_to) eqn:Hgr,
           (query_logs db well_id "DENS" depth_from depth_to) eqn:Hdens,
           (query_logs db well_id "NEUT" depth_from depth_to) eqn:Hneut,
           (query_logs db well_id "RESIS" depth_from depth_to) eqn:Hresis;
    repeat (apply elem_of_cons in Hin as [->|Hin]);
    try (by apply elem_of_nil in Hin);
    rewrite ?Hgr, ?Hdens, ?Hneut, ?Hresis; by simplify_map_eq.
Qed.

Lemma log_entry_values (log_data : list WellLog.t) (entry : LogData) :
  log_entry log_data = Some entry → values entry ≠ [].
Proof.
  destruct log_data as [|l log_data]; simpl; [done|].
  intros [= <-]. done.
Qed.

Lemma log_entry_None (log_data : list WellLog.t) :
  log_entry log_data = None ↔ log_data = [].
Proof. by destruct log_data. Qed.

Section AnalysisProperties.

Variable power : Qc → Qc → Qc.

Lemma np_array_finite (vs : list Qc) :
  Forall (λ x, is_finite x = true) (np_array vs).
Proof. unfold np_array. apply Forall_fmap, Forall_true. done. Qed.

Lemma np_array_nonempty (vs : list Qc) : vs ≠ [] → np_array vs ≠ [].
Proof. by destruct vs. Qed.

Lemma np_clip_nonempty (a : list num) (lo hi : Qc) :
  a ≠ [] → np_clip a lo hi ≠ [].
Proof. by destruct a. Qed.

(** The mean clay volume is [nan] or lies in [[0, 1]]. *)
Lemma vshale_mean_bounded (gr_values : list num) (gr_clean gr_shale : Qc) :
  gr_values ≠ [] →
  bounded 0 1 (vshale_mean_of power gr_values gr_clean gr_shale).
Proof.
  intros Hne. unfold vshale_mean_of. apply np_mean_bounded.
  - unfold vshale_of, igr_of. destruct gr_values; [done|]. done.
  - by apply np_clip_bounded.
Qed.

(** The mean density porosity is [nan] or lies in [[0, 0.5]]. *)
Lemma porosity_bounded (dens_values : list num) (rho_matrix rho_fluid : Qc) :
  dens_values ≠ [] →
  bounded 0 (frac 5 10) (porosity_of dens_values rho_matrix rho_fluid).
Proof.
  intros Hne. unfold porosity_of. apply np_mean_bounded.
  - unfold porosity_dens_of. by destruct dens_values.
  - by apply np_clip_bounded.
Qed.

(** With distinct calibration readings no gamma-ray index is [nan]. *)
Lemma igr_finite (vs : list Qc) (gr_clean gr_shale : Qc) :
  gr_shale ≠ gr_clean →
  Forall (λ x, is_finite x = true) (igr_of (np_array vs) gr_clean gr_shale).
Proof.
  intros Hne. unfold igr_of, np_clip, np_array.
  rewrite <- !list_fmap_compose. apply Forall_fmap, Forall_true.
  intros g. simpl. apply np_clip1_finite.
  assert (Qceqb (gr_shale - gr_clean) 0 = false) as ->; [|done].
  apply Qceqb_neq. intros Heq. apply Hne. qc2q. lra.
Qed.

Lemma vshale_finite (igr : list num) :
  Forall (λ x, is_finite x = true) igr →
  Forall (λ x, is_finite x = true) (vshale_of power igr).
Proof.
  intros Hfin. unfold vshale_of, np_clip.
  rewrite <- list_fmap_compose. apply Forall_fmap.
  eapply Forall_impl; [exact Hfin|].
  intros [i| | |] Hi; try done.
  apply np_clip1_finite. done.
Qed.

Lemma vshale_mean_finite (vs : list Qc) (gr_clean gr_shale : Qc) :
  vs ≠ [] → gr_shale ≠ gr_clean →
  ∃ v, vshale_mean_of power (np_array vs) gr_clean gr_shale = Fin v
       ∧ 0 ≤ v ∧ v ≤ 1.
Proof.
  intros Hvs Hne. apply bounded_finite.
  - apply vshale_mean_bounded. by apply np_array_nonempty.
  - unfold vshale_mean_of. apply np_mean_finite.
    + unfold vshale_of, igr_of. by destruct vs.
    + by apply vshale_finite, igr_finite.
Qed.

Lemma porosity_finite (vs : list Qc) (rho_matrix rho_fluid : Qc) :
  vs ≠ [] → rho_matrix ≠ rho_fluid →
  ∃ p, porosity_of (np_array vs) rho_matrix rho_fluid = Fin p
       ∧ 0 ≤ p ∧ p ≤ frac 5 10.
Proof.
  intros Hvs Hne. apply bounded_finite.
  - apply porosity_bounded. by apply np_array_nonempty.
  - unfold porosity_of. apply np_mean_finite.
    + unfold porosity_dens_of. by destruct vs.
    + unfold porosity_dens_of, np_clip, np_array.
      rewrite <- !list_fmap_compose. apply Forall_fmap, Forall_true.
      intros d. simpl. apply np_clip1_finite.
      assert (Qceqb (rho_matrix - rho_fluid) 0 = false) as ->; [|done].
      apply Qceqb_neq. intros Heq. apply Hne. qc2q. lra.
Qed.

End AnalysisProperties.

(** ** The route, case by case *)

Section RouteCases.

Variable power : Qc → Qc → Qc.

Lemma calculate_zone_no_gr (db : Database) (well_id : Z)
    (depth_from depth_to : Qc) (data : gmap string Qc) :
  query_logs db well_id "GR" depth_from depth_to = [] →
  calculate_zone power db well_id depth_from depth_to data
  = (BadRequest "Log GR requis pour le calcul", db).
Proof.
  intros Hgr. unfold calculate_zone.
  rewrite collect_logs_lookup by set_solver. by rewrite Hgr.
Qed.

Lemma calculate_zone_created (db : Database) (well_id : Z)
    (depth_from depth_to : Qc) (data : gmap string Qc) :
  query_logs db well_id "GR" depth_from depth_to ≠ [] →
  ∃ petro interp,
    calculate_zone power db well_id depth_from depth_to data
    = (Created petro interp, session_add db petro)
    ∧ zone_computed power db well_id depth_from depth_to data petro.
Proof.
  intros Hgr. unfold calculate_zone.
  rewrite !collect_logs_lookup by set_solver.
  destruct (log_entry (query_logs db well_id "GR" depth_from depth_to))
    as [gr|] eqn:Egr; [|by apply log_entry_None in Egr].
  eexists _, _. split; [reflexivity|].
  exists gr. split; [done|]. simpl.
  repeat split; try done.
Qed.

(** A 201 response comes from two true depths and a non-empty gamma-ray
    query, and stores exactly the zone it returns. *)
Lemma calculate_petrophysics_created (db db' : Database) (user_id well_id : Z)
    (data : gmap string Qc) (petro : Petrophysics.t) (interp : Interpretation) :
  calculate_petrophysics power db user_id well_id data
  = (Created petro interp, db') →
  ∃ depth_from depth_to,
    data !! "depth_from" = Some depth_from
    ∧ data !! "depth_to" = Some depth_to
    ∧ depth_from ≠ 0 ∧ depth_to ≠ 0
    ∧ zone_computed power db well_id depth_from depth_to data petro
    ∧ db' = session_add db petro.
Proof.
  unfold calculate_petrophysics.
  destruct (query_well db well_id user_id) as [well|]; [|done].
  destruct (data !! "depth_from") as [df|]; [|done].
  destruct (data !! "depth_to") as [dt|]; [|done].
  simpl. destruct (Qceqb df 0) eqn:Hdf; [done|].
  destruct (Qceqb dt 0) eqn:Hdt; [done|]. simpl.
  apply Qceqb_neq in Hdf, Hdt.
  destruct (query_logs db well_id "GR" df dt) eqn:Hgr.
  - by rewrite calculate_zone_no_gr.
  - destruct (calculate_zone_created db well_id df dt data)
      as (petro' & interp' & -> & Hzone); [by rewrite Hgr|].
    intros [= <- <- <-]. by exists df, dt.
Qed.

(** Two true depths on a well of the user lead to [calculate_zone]. *)
Lemma calculate_petrophysics_depths (db : Database) (user_id well_id : Z)
    (well : Well.t) (data : gmap string Qc) (depth_from depth_to : Qc) :
  query_well db well_id user_id = Some well →
  data !! "depth_from" = Some depth_from →
  data !! "depth_to" = Some depth_to →
  depth_from ≠ 0 → depth_to ≠ 0 →
  calculate_petrophysics power db user_id well_id data
  = calculate_zone power db well_id depth_from depth_to data.
Proof.
  intros Hwell Hdf Hdt Hnf Hnt. unfold calculate_petrophysics.
  rewrite Hwell, Hdf, Hdt. simpl.
  apply Qceqb_neq in Hnf, Hnt. by rewrite Hnf, Hnt.
Qed.

End RouteCases.

(** ** Errors of the route *)

(** A failed request writes nothing. *)
Lemma calculate_petrophysics_error_unchanged (power : Qc → Qc → Qc)
    (db db' : Database) (user_id well_id : Z) (data : gmap string Qc)
    (response : Response) :
  calculate_petrophysics power db user_id well_id data = (response, db') →
  (∀ petro interp, response ≠ Created petro interp) →
  db' = db.
Proof.
  unfold calculate_petrophysics.
  destruct (query_well db well_id user_id) as [well|]; [|by intros [= <- <-]].
  destruct (data !! "depth_from") as [df|]; [|by intros [= <- <-]].
  destruct (data !! "depth_to") as [dt|]; [|by intros [= <- <-]].
  destruct (negb (truthy (Fin df)) || negb (truthy (Fin dt)));
    [by intros [= <- <-]|].
  destruct (query_logs db well_id "GR" df dt) eqn:Hgr.
  - rewrite calculate_zone_no_gr by done. by intros [= <- <-].
  - destruct (calculate_zone_created power db well_id df dt data)
      as (petro & interp & -> & _); [by rewrite Hgr|].
    intros [= <- <-] Herr. by destruct (Herr petro interp).
Qed.

(** C4. When the requested interval holds no gamma-ray sample the
    computation fails with the gamma-ray-required error and the database is
    unchanged; when it holds one the computation succeeds whatever other
    curves are missing: without density samples porosity, effective
    porosity and water saturation stay absent, without resistivity samples
    the water saturation stays absent. *)
Theorem C4_gamma_ray_required (power : Qc → Qc → Qc) (db : Database)
    (user_id well_id : Z) (well : Well.t) (data : gmap string Qc)
    (depth_from depth_to : Qc) :
  query_well db well_id user_id = Some well →
  data !! "depth_from" = Some depth_from →
  data !! "depth_to" = Some depth_to →
  depth_from ≠ 0 → depth_to ≠ 0 →
  (query_logs db well_id "GR" depth_from depth_to = [] →
   calculate_petrophysics power db user_id well_id data
   = (BadRequest "Log GR requis pour le calcul", db))
  ∧ (query_logs db well_id "GR" depth_from depth_to ≠ [] →
     ∃ petro interp,
       calculate_petrophysics power db user_id well_id data
       = (Created petro interp, session_add db petro)
       ∧ (query_logs db well_id "DENS" depth_from depth_to = [] →
          Petrophysics.porosity petro = None
          ∧ Petrophysics.porosity_effective petro = None
          ∧ Petrophysics.saturation_water petro = None)
       ∧ (query_logs db well_id "RESIS" depth_from depth_to = [] →
          Petrophysics.saturation_water petro = None)).
Proof.
  intros Hwell Hdf Hdt Hnf Hnt.
  rewrite (calculate_petrophysics_depths power db user_id well_id well data
             depth_from depth_to) by done.
  split.
  - apply calculate_zone_no_gr.
  - intros Hgr.
    destruct (calculate_zone_created power db well_id depth_from depth_to data Hgr)
      as (petro & interp & Heq & gr & _ & _ & _ & _ & _ & Hphi & Hphie & Hsw & _).
    exists petro, interp. split; [done|]. split.
    + intros Hdens. rewrite Hdens in Hphi. simpl in Hphi.
      rewrite Hphi in Hphie. simpl in Hphie. rewrite Hphie in Hsw.
      repeat split; try done.
      by destruct (log_entry (query_logs db well_id "RESIS" depth_from depth_to)).
    + intros Hresis. by rewrite Hresis in Hsw.
Qed.

Lemma C4_gamma_ray_required_witness :
  calculate_petrophysics power_floor Demo.db_no_gr 7 1 Demo.request
  = (BadRequest "Log GR requis pour le calcul", Demo.db_no_gr)
  ∧ ∃ petro interp,
      calculate_petrophysics power_floor Demo.db_gr_only 7 1 Demo.request
      = (Created petro interp, session_add Demo.db_gr_only petro)
      ∧ Petrophysics.porosity petro = None
      ∧ Petrophysics.saturation_water petro = None.
Proof.
  split.
  - apply (C4_gamma_ray_required power_floor Demo.db_no_gr 7 1 Demo.well
             Demo.request (of_Z 90) (of_Z 110));
      [reflexivity | reflexivity | reflexivity | discriminate | discriminate
      | reflexivity].
  - destruct (C4_gamma_ray_required power_floor Demo.db_gr_only 7 1 Demo.well
                Demo.request (of_Z 90) (of_Z 110))
      as [_ Hok];
      [reflexivity | reflexivity | reflexivity | discriminate | discriminate |].
    destruct Hok as (petro & interp & Heq & Hdens & Hresis); [discriminate|].
    exists petro, interp. split; [exact Heq|].
    split; [apply Hdens | apply Hresis]; reflexivity.
Defined.

Lemma calculate_petrophysics_depth_missing (power : Qc → Qc → Qc)
    (db : Database) (user_id well_id : Z) (well : Well.t)
    (data : gmap string Qc) :
  query_well db well_id user_id = Some well →
  depth_missing (data !! "depth_from") ∨ depth_missing (data !! "depth_to") →
  calculate_petrophysics power db user_id well_id data
  = (BadRequest "depth_from et depth_to sont requis", db).
Proof.
  intros Hwell Hmiss. unfold calculate_petrophysics. rewrite Hwell.
  destruct (data !! "depth_from") as [df|], (data !! "depth_to") as [dt|];
    try done.
  destruct Hmiss as [[Hm|Hm]|[Hm|Hm]]; try done.
  - injection Hm as ->. done.
  - injection Hm as ->. simpl. by rewrite orb_true_r.
Qed.

Lemma insert_by_perm {A} (key : A → Qc) (x : A) (l : list A) :
  insert_by key x l ≡ₚ x :: l.
Proof.
  induction l as [|y l IH]; simpl; [done|].
  destruct (Qcleb (key x) (key y)); [done|].
  rewrite IH. apply Permutation_swap.
Qed.

Lemma order_by_perm {A} (key : A → Qc) (l : list A) : order_by key l ≡ₚ l.
Proof.
  unfold order_by. induction l as [|x l IH]; simpl; [done|].
  by rewrite insert_by_perm, IH.
Qed.

Lemma query_logs_elem (db : Database) (well_id : Z) (log_type : string)
    (depth_from depth_to : Qc) (l : WellLog.t) :
  l ∈ query_logs db well_id log_type depth_from depth_to
  ↔ l ∈ well_logs db
    ∧ WellLog.well_id l = well_id ∧ WellLog.log_type l = log_type
    ∧ depth_from ≤ WellLog.depth l ∧ WellLog.depth l ≤ depth_to.
Proof.
  unfold query_logs. rewrite order_by_perm, !list_elem_of_filter. tauto.
Qed.

Lemma filter_none {A} (P : A → Prop) `{!∀ x, Decision (P x)} (l : list A) :
  (∀ x, ¬ P x) → filter P l = [].
Proof.
  intros HP. induction l as [|x l IH]; [done|].
  by rewrite filter_cons_False.
Qed.

(** An interval whose bounds are in the wrong order holds no sample. *)
Lemma query_logs_inverted (db : Database) (well_id : Z) (log_type : string)
    (depth_from depth_to : Qc) :
  depth_to < depth_from →
  query_logs db well_id log_type depth_from depth_to = [].
Proof.
  intros Hlt. unfold query_logs.
  rewrite filter_none; [done|].
  intros l [H1 H2]. apply (Qclt_not_le _ _ Hlt).
  by apply Qcle_trans with (WellLog.depth l).
Qed.

(** The gamma-ray query of a single depth holds the gamma-ray samples of
    the well at that depth. *)
Lemma query_logs_point (db : Database) (well_id : Z) (log_type : string)
    (depth : Qc) (l : WellLog.t) :
  l ∈ query_logs db well_id log_type depth depth
  ↔ l ∈ well_logs db ∧ WellLog.well_id l = well_id
    ∧ WellLog.log_type l = log_type ∧ WellLog.depth l = depth.
Proof.
  rewrite query_logs_elem. split.
  - intros (Hl & Hw & Ht & H1 & H2). repeat split; try done.
    by apply Qcle_antisym.
  - intros (Hl & Hw & Ht & <-). repeat split; try done; apply Qcle_refl.
Qed.

(** C3, as the route has it.  A request in which a depth bound is missing
    fails with the depths-required error, whatever the database holds, and
    leaves it unchanged.  The order of two bounds that are present and not
    zero is not tested.  With [depth_from > depth_to] the queries run, find
    no sample, and the computation fails with the gamma-ray-required
    error, the database again unchanged.  With [depth_from = depth_to] the
    request is computed like any other interval: a zone over that single
    depth is stored when the well has a gamma-ray sample at that depth,
    and the computation fails with the gamma-ray-required error when it
    has none. *)
Theorem C3_depth_bounds (power : Qc → Qc → Qc) (db : Database)
    (user_id well_id : Z) (well : Well.t) (data : gmap string Qc) :
  query_well db well_id user_id = Some well →
  (data !! "depth_from" = None ∨ data !! "depth_to" = None →
   calculate_petrophysics power db user_id well_id data
   = (BadRequest "depth_from et depth_to sont requis", db))
  ∧ (∀ depth_from depth_to,
       data !! "depth_from" = Some depth_from →
       data !! "depth_to" = Some depth_to →
       depth_from ≠ 0 → depth_to ≠ 0 →
       (depth_to < depth_from →
        calculate_petrophysics power db user_id well_id data
        = (BadRequest "Log GR requis pour le calcul", db))
       ∧ (depth_from = depth_to →
          ((∃ l, l ∈ well_logs db ∧ WellLog.well_id l = well_id
                 ∧ WellLog.log_type l = "GR"
                 ∧ WellLog.depth l = depth_from) →
           ∃ petro interp,
             calculate_petrophysics power db user_id well_id data
             = (Created petro interp, session_add db petro)
             ∧ Petrophysics.depth_from petro = depth_from
             ∧ Petrophysics.depth_to petro = depth_from)
          ∧ ((∀ l, l ∈ well_logs db → WellLog.well_id l = well_id →
                   WellLog.log_type l = "GR" →
                   WellLog.depth l ≠ depth_from) →
             calculate_petrophysics power db user_id well_id data
             = (BadRequest "Log GR requis pour le calcul", db)))).
Proof.
  intros Hwell. split.
  - intros Hmiss.
    apply (calculate_petrophysics_depth_missing power db user_id well_id well);
      [done|]. unfold depth_missing. tauto.
  - intros df dt Hdf Hdt Hnf Hnt.
    rewrite (calculate_petrophysics_depths power db user_id well_id well data
               df dt) by done.
    split; [|intros <-; split].
    + intros Hlt. apply calculate_zone_no_gr. by apply query_logs_inverted.
    + intros (l & Hl & Hw & Ht & Hd).
      destruct (calculate_zone_created power db well_id df df data)
        as (petro & interp & Heq & gr & _ & _ & Hfrom & Hto & _).
      { intros Hnil.
        assert (l ∈ query_logs db well_id "GR" df df) as Hin
          by (by apply query_logs_point).
        rewrite Hnil in Hin. by apply elem_of_nil in Hin. }
      by exists petro, interp.
    + intros Hnone. apply calculate_zone_no_gr.
      destruct (query_logs db well_id "GR" df df) as [|l ls] eqn:Hq; [done|].
      assert (l ∈ query_logs db well_id "GR" df df) as Hin
        by (rewrite Hq; apply list_elem_of_here).
      apply query_logs_point in Hin as (Hl & Hw & Ht & Hd).
      by destruct (Hnone l).
Qed.

Lemma C3_depth_bounds_witness :
  calculate_petrophysics power_floor Demo.db 7 1 Demo.open_request
  = (BadRequest "depth_from et depth_to sont requis", Demo.db)
  ∧ calculate_petrophysics power_floor Demo.db 7 1 Demo.inverted_request
    = (BadRequest "Log GR requis pour le calcul", Demo.db)
  ∧ (∃ petro interp,
       calculate_petrophysics power_floor Demo.db 7 1 Demo.point_request
       = (Created petro interp, session_add Demo.db petro)
       ∧ Petrophysics.depth_from petro = of_Z 100
       ∧ Petrophysics.depth_to petro = of_Z 100)
  ∧ calculate_petrophysics power_floor Demo.db 7 1
      (Demo.body (Demo.interval 95 95))
    = (BadRequest "Log GR requis pour le calcul", Demo.db).
Proof.
  split; [|split; [|split]].
  - destruct (C3_depth_bounds power_floor Demo.db 7 1 Demo.well
                Demo.open_request eq_refl) as [Hmissing _].
    apply Hmissing. right. reflexivity.
  - destruct (C3_depth_bounds power_floor Demo.db 7 1 Demo.well
                Demo.inverted_request eq_refl) as [_ Hpresent].
    destruct (Hpresent (of_Z 110) (of_Z 90)) as [Hinverted _];
      [reflexivity | reflexivity | discriminate | discriminate |].
    apply Hinverted. reflexivity.
  - destruct (C3_depth_bounds power_floor Demo.db 7 1 Demo.well
                Demo.point_request eq_refl) as [_ Hpresent].
    destruct (Hpresent (of_Z 100) (of_Z 100)) as [_ Hequal];
      [reflexivity | reflexivity | discriminate | discriminate |].
    destruct (Hequal eq_refl) as [Hcomputed _]. apply Hcomputed.
    exists (Demo.sample "GR" 100 (of_Z 20)).
    split; [apply list_elem_of_here | done].
  - destruct (C3_depth_bounds power_floor Demo.db 7 1 Demo.well
                (Demo.body (Demo.interval 95 95)) eq_refl) as [_ Hpresent].
    destruct (Hpresent (of_Z 95) (of_Z 95)) as [_ Hequal];
      [reflexivity | reflexivity | discriminate | discriminate |].
    destruct (Hequal eq_refl) as [_ Hrefused]. apply Hrefused.
    intros l Hl _ _.
    repeat (apply elem_of_cons in Hl as [->|Hl]); try discriminate.
    by apply elem_of_nil in Hl.
Defined.

(** A request with [depth_from = depth_to = 100] on a well with samples at
    100 m is not rejected: the zone is computed and stored. *)
Lemma C3_equal_depths_accepted :
  Demo.point_request !! "depth_from" = Demo.point_request !! "depth_to"
  ∧ ∃ petro interp,
      calculate_petrophysics power_floor Demo.db 7 1 Demo.point_request
      = (Created petro interp, session_add Demo.db petro)
      ∧ petrophysics (session_add Demo.db petro) = [petro]
      ∧ Petrophysics.depth_from petro = Petrophysics.depth_to petro.
Proof.
  split; [reflexivity|].
  eexists _, _. split; [vm_compute; reflexivity|].
  split; reflexivity.
Qed.

(** ** Degenerate calibration *)

(** C2. A request whose calibration makes a divisor zero should fail with
    a configuration error and store nothing.  The route has no such test:
    with [gr_shale = gr_clean = 20] and a gamma-ray sample of 20 the index
    is [0/0], and the zone is stored with a [nan] clay volume; with
    [rho_matrix = rho_fluid = 2.65] and a density sample of 2.65 the zone
    is stored with a [nan] porosity and effective porosity.  Both requests
    are answered 201, for any power function. *)
Theorem C2_degenerate_calibration_stored (power : Qc → Qc → Qc) :
  gr_shale_of Demo.equal_gr_request = gr_clean_of Demo.equal_gr_request
  ∧ (∃ petro interp,
       calculate_petrophysics power Demo.db 7 1 Demo.equal_gr_request
       = (Created petro interp, session_add Demo.db petro)
       ∧ Petrophysics.vshale petro = Some NaN)
  ∧ rho_matrix_of Demo.equal_rho_request = rho_fluid_of Demo.equal_rho_request
  ∧ (∃ petro interp,
       calculate_petrophysics power Demo.db_matrix 7 1 Demo.equal_rho_request
       = (Created petro interp, session_add Demo.db_matrix petro)
       ∧ Petrophysics.porosity petro = Some NaN
       ∧ Petrophysics.porosity_effective petro = Some NaN).
Proof.
  split; [reflexivity|]. split.
  - eexists _, _. split; [vm_compute; reflexivity | reflexivity].
  - split; [reflexivity|].
    destruct (calculate_zone_created power Demo.db_matrix 1 (of_Z 90) (of_Z 110)
                Demo.equal_rho_request)
      as (petro & interp & Heq & gr & _ & _ & _ & _ & _ & Hphi & Hphie & _);
      [discriminate|].
    exists petro, interp. split.
    + rewrite <- Heq.
      by apply (calculate_petrophysics_depths power Demo.db_matrix 7 1 Demo.well).
    + assert (Petrophysics.porosity petro = Some NaN) as Hnan.
      { rewrite Hphi. vm_compute. reflexivity. }
      split; [exact Hnan|]. by rewrite Hphie, Hnan.
Qed.

(** ** The zone classifier *)

(** On a finite clay volume and a saturation that is not zero the
    classifier of the route is the rule of the specification. *)
Lemma classify_zone_spec (v : Qc) (sw : option num) :
  (∀ s, sw = Some s → truthy s = true) →
  classify_zone (Fin v) sw = spec_zone_type v sw.
Proof.
  intros Hsw. unfold classify_zone, spec_zone_type. simpl.
  destruct (Qcltb v (frac 3 10)) eqn:Hv.
  - apply Qcltb_lt, Qcleb_gt in Hv. rewrite Hv.
    destruct sw as [s|]; [|done]. by rewrite (Hsw s eq_refl).
  - apply Qcltb_ge, Qcleb_le in Hv. by rewrite Hv.
Qed.

Lemma Qc_pos_neq (x : Qc) : 0 < x → Qceqb x 0 = false.
Proof.
  intros Hx. apply Qceqb_neq. intros ->. by apply Qclt_not_eq in Hx.
Qed.

(** C1. The classifier should type as reservoir every bundle with a clay
    volume below 0.3 and a water saturation that is present and below 0.5.
    The route tests [if saturation_water and saturation_water < 0.5], and a
    saturation of exactly 0 is false in Python: that bundle is typed water
    bearing.  The saturation block of the route computes this value when
    the mean resistivity is infinite ([sw_n = 0.1 / inf = 0]), the power
    being positive on positive bases and [0 ** y = 0] for [y > 0].  On every
    other bundle with a finite clay volume the classifier is the claimed
    rule. *)
Theorem C1_zero_saturation_water_bearing (power : Qc → Qc → Qc) :
  (∀ x y, 0 < x → 0 < power x y) →
  (∀ y, 0 < y → power 0 y = 0) →
  (∀ porosity_effective : Qc,
     0 < porosity_effective →
     archie power (Fin porosity_effective) [PInf] = Some (Fin 0))
  ∧ (∀ vshale_mean : Qc,
       vshale_mean < frac 3 10 →
       classify_zone (Fin vshale_mean) (Some (Fin 0)) = "water_bearing"
       ∧ spec_zone_type vshale_mean (Some (Fin 0)) = "reservoir")
  ∧ (∀ (vshale_mean : Qc) (saturation_water : option num),
       saturation_water ≠ Some (Fin 0) →
       classify_zone (Fin vshale_mean) saturation_water
       = spec_zone_type vshale_mean saturation_water).
Proof.
  intros Hpos Hzero. split; [|split].
  - intros phie Hphie. unfold archie.
    change (np_mean [PInf]) with PInf.
    assert (ngtb (Fin phie) (Fin 0) = true) as ->
      by (by apply Qcltb_lt).
    cbn [andb ngtb npow].
    pose proof (Hpos phie (of_Z 2) Hphie) as Hsq.
    assert (nmul (Fin (power phie (of_Z 2))) PInf = PInf) as ->.
    { cbn [nmul]. rewrite (Qc_pos_neq _ Hsq).
      by apply Qcltb_lt in Hsq as ->. }
    cbn [ndiv npow]. rewrite Hzero by reflexivity. reflexivity.
  - intros v Hv. unfold classify_zone, spec_zone_type. cbn [nltb].
    pose proof Hv as Hlt. apply Qcltb_lt in Hlt as ->.
    apply Qcleb_gt in Hv as ->. done.
  - intros v sw Hsw. apply classify_zone_spec. intros s ->.
    destruct s as [q| | |]; try done. simpl.
    destruct (Qceqb q 0) eqn:Hq; [|done].
    apply Qceqb_eq in Hq as ->. done.
Qed.

Lemma power_floor_pos (x y : Qc) : 0 < x → 0 < power_floor x y.
Proof.
  intros Hx. unfold power_floor.
  induction (Z.to_nat (Qfloor y)) as [|n IH]; simpl; [done|].
  qc2q. nra.
Qed.

Lemma power_approx_pos (x y : Qc) : 0 < x → 0 < power_approx x y.
Proof.
  intros Hx. unfold power_approx.
  destruct (Qceqb y (frac 1 2)); [|by apply power_floor_pos].
  unfold newton_sqrt. generalize 5%nat. intros n.
  induction n as [|n IH]; simpl; [done|].
  set (r := Nat.iter n _ _) in *. clearbody r. qc2q.
  apply Qlt_shift_div_l; [done|].
  assert (0 < x / r)%Q by (apply Qlt_shift_div_l; [done | lra]).
  lra.
Qed.

Lemma power_root_pos (x y : Qc) : 0 < x → 0 < power_root x y.
Proof.
  intros Hx. unfold power_root. rewrite (Qc_pos_neq _ Hx).
  by apply power_approx_pos.
Qed.

Lemma power_root_zero (y : Qc) : 0 < y → power_root 0 y = 0.
Proof.
  intros Hy. unfold power_root.
  assert (Qceqb 0 0 = true) as -> by (by apply Qceqb_eq).
  by apply Qcltb_lt in Hy as ->.
Qed.

Lemma C1_zero_saturation_water_bearing_witness :
  archie power_root (Fin (frac 2 10)) [PInf] = Some (Fin 0)
  ∧ classify_zone (Fin (frac 1 10)) (Some (Fin 0)) = "water_bearing"
  ∧ spec_zone_type (frac 1 10) (Some (Fin 0)) = "reservoir".
Proof.
  destruct (C1_zero_saturation_water_bearing power_root power_root_pos
              power_root_zero) as (Harchie & Hzone & _).
  split; [apply Harchie; reflexivity | apply Hzone; reflexivity].
Defined.

(** ** Effective porosity *)

(** For every zone the route computes with non-degenerate calibration
    constants: when the porosity was computed, the effective porosity is
    [porosity * (1 - vshale_mean)] and lies between 0 and the porosity,
    the clay volume being a mean of values clipped to [[0, 1]]; when the
    porosity is absent, so is the effective porosity. *)
Lemma effective_porosity_nondegenerate (power : Qc → Qc → Qc) (db db' : Database)
    (user_id well_id : Z) (data : gmap string Qc)
    (petro : Petrophysics.t) (interp : Interpretation) :
  gr_shale_of data ≠ gr_clean_of data →
  rho_matrix_of data ≠ rho_fluid_of data →
  calculate_petrophysics power db user_id well_id data
  = (Created petro interp, db') →
  ∃ vshale_mean : Qc,
    Petrophysics.vshale petro = Some (Fin vshale_mean)
    ∧ 0 ≤ vshale_mean ∧ vshale_mean ≤ 1
    ∧ match Petrophysics.porosity petro with
      | None => Petrophysics.porosity_effective petro = None
      | Some porosity =>
          ∃ phi : Qc,
            porosity = Fin phi
            ∧ Petrophysics.porosity_effective petro
              = Some (Fin (phi * (1 - vshale_mean)))
            ∧ 0 ≤ phi * (1 - vshale_mean)
            ∧ phi * (1 - vshale_mean) ≤ phi
      end.
Proof.
  intros Hgr_cal Hrho_cal Hcreated.
  apply calculate_petrophysics_created in Hcreated
    as (df & dt & _ & _ & _ & _ & Hzone & _).
  destruct Hzone as (gr & Hgr & _ & _ & _ & Hvsh & Hphi & Hphie & _).
  destruct (vshale_mean_finite power (values gr) (gr_clean_of data)
              (gr_shale_of data)) as (v & Hv & Hv0 & Hv1);
    [by eapply log_entry_values | done |].
  rewrite Hv in *. exists v. repeat (split; [done|]).
  destruct (log_entry (query_logs db well_id "DENS" df dt)) as [d|] eqn:Ed;
    simpl in Hphi; rewrite Hphi in *; [|done].
  destruct (porosity_finite (values d) (rho_matrix_of data) (rho_fluid_of data))
    as (p & Hp & Hp0 & _); [by eapply log_entry_values | done |].
  exists p. split; [done|]. rewrite Hp in Hphie. simpl in Hphie.
  split; [done|]. clear Hphie Hp Hphi Hv Hvsh. split; qc2q; nra.
Qed.

(** C6. The effective porosity of a result should be
    [porosity * (1 - vshale_mean)] with [0 <= porosity_effective <=
    porosity], the clay volume being a number of [[0, 1]].  The route does
    not test the calibration: with [gr_shale = gr_clean = 20] and a
    gamma-ray sample of 20 the clay volume is [nan], and the zone that is
    answered and stored has the porosity [3/11] of its density sample and
    the effective porosity [3/11 * (1 - nan) = nan], for any power
    function. *)
Theorem C6_degenerate_calibration_effective_porosity (power : Qc → Qc → Qc) :
  gr_shale_of Demo.equal_gr_request = gr_clean_of Demo.equal_gr_request
  ∧ ∃ petro interp,
      calculate_petrophysics power Demo.db 7 1 Demo.equal_gr_request
      = (Created petro interp, session_add Demo.db petro)
      ∧ Petrophysics.vshale petro = Some NaN
      ∧ Petrophysics.porosity petro = Some (Fin (frac 3 11))
      ∧ Petrophysics.porosity_effective petro = Some NaN
      ∧ ¬ (∃ phie : Qc,
             Petrophysics.porosity_effective petro = Some (Fin phie)
             ∧ 0 ≤ phie ∧ phie ≤ frac 3 11).
Proof.
  split; [reflexivity|].
  destruct (calculate_zone_created power Demo.db 1 (of_Z 90) (of_Z 110)
              Demo.equal_gr_request)
    as (petro & interp & Heq & gr & Hgr & _ & _ & _ & Hvsh & Hphi & Hphie & _);
    [discriminate|].
  exists petro, interp.
  assert (Petrophysics.vshale petro = Some NaN) as Hnan.
  { rewrite Hvsh. injection Hgr as <-. vm_compute. reflexivity. }
  assert (Petrophysics.porosity petro = Some (Fin (frac 3 11))) as Hp.
  { rewrite Hphi. by_compute. }
  assert (Petrophysics.porosity_effective petro = Some NaN) as He.
  { rewrite Hphie, Hp. rewrite Hvsh in Hnan. injection Hnan as ->. done. }
  split.
  { rewrite <- Heq.
    by apply (calculate_petrophysics_depths power Demo.db 7 1 Demo.well). }
  repeat split; try done.
  intros (phie & Hsome & _). by rewrite He in Hsome.
Qed.

Lemma classify_zone_boundary (sw : option num) :
  classify_zone (Fin (frac 3 10)) sw = "shale".
Proof. reflexivity. Qed.

(** ** The summary *)

Lemma foldl_Qcplus_acc (l : list Qc) (acc : Qc) :
  foldl Qcplus acc l = acc + foldl Qcplus 0 l.
Proof.
  revert acc. induction l as [|x l IH]; intros acc; simpl.
  - by rewrite Qcplus_0_r.
  - rewrite IH, (IH (0 + x)), Qcplus_0_l. symmetry. apply Qcplus_assoc.
Qed.

Lemma py_sum_fin_cons (x : Qc) (l : list Qc) :
  py_sum_fin (x :: l) = x + py_sum_fin l.
Proof.
  unfold py_sum_fin. simpl. by rewrite foldl_Qcplus_acc, Qcplus_0_l.
Qed.



(** A zone stored by the route has its bounds in order: some gamma-ray
    sample lies between them. *)
Lemma order_by_nil {A} (key : A → Qc) (l : list A) :
  order_by key l = [] → l = [].
Proof.
  destruct l as [|x l]; [done|]. unfold order_by. simpl.
  destruct (foldr (insert_by key) [] l) as [|y l']; simpl; [done|].
  by destruct (Qcleb (key x) (key y)).
Qed.

Lemma query_logs_interval (db : Database) (well_id : Z) (log_type : string)
    (depth_from depth_to : Qc) :
  query_logs db well_id log_type depth_from depth_to ≠ [] →
  depth_from ≤ depth_to.
Proof.
  intros Hne. unfold query_logs in Hne.
  destruct (filter _ (filter _ (well_logs db))) as [|l ls] eqn:Hf;
    [by destruct Hne|].
  assert (l ∈ l :: ls) as Hin by apply list_elem_of_here.
  rewrite <- Hf in Hin. apply list_elem_of_filter in Hin as [[H1 H2] _].
  by apply Qcle_trans with (WellLog.depth l).
Qed.

Lemma created_zone_ordered (power : Qc → Qc → Qc) (db db' : Database)
    (user_id well_id : Z) (data : gmap string Qc)
    (petro : Petrophysics.t) (interp : Interpretation) :
  calculate_petrophysics power db user_id well_id data
  = (Created petro interp, db') →
  Petrophysics.depth_from petro ≤ Petrophysics.depth_to petro.
Proof.
  intros Hcreated.
  apply calculate_petrophysics_created in Hcreated
    as (df & dt & _ & _ & _ & _ & Hzone & _).
  destruct Hzone as (gr & Hgr & _ & -> & -> & _).
  apply (query_logs_interval db well_id "GR").
  intros Hnil. by rewrite Hnil in Hgr.
Qed.

(** [o or 0] is [o], with 0 for an absent value: a value that is false is
    zero already. *)
Lemma py_or_zero (o : option num) : py_or o (Fin 0) = default (Fin 0) o.
Proof.
  destruct o as [x|]; [|done]. simpl.
  destruct x as [q| | |]; simpl; try done.
  destruct (Qceqb q 0) eqn:Hq; simpl; [|done].
  apply Qceqb_eq in Hq. by rewrite Hq.
Qed.

Lemma average_over_mean (column : Petrophysics.t → option num)
    (reservoir_zones : list Petrophysics.t) :
  reservoir_zones ≠ [] →
  average_over column reservoir_zones
  = mean_absent_as_zero (column <$> reservoir_zones).
Proof.
  intros Hne. unfold average_over, mean_absent_as_zero.
  destruct reservoir_zones as [|z zs]; [done|].
  rewrite length_fmap, <- list_fmap_compose. do 2 f_equal.
  apply list_fmap_ext. intros i x _. apply py_or_zero.
Qed.

(** ** The recommendations of the report *)

(** The inner loop appends one warning when some reservoir zone is close,
    and nothing otherwise. *)
Lemma scan_reservoirs_near (wz : Petrophysics.t)
    (reservoir_zones : list Petrophysics.t) :
  scan_reservoirs wz reservoir_zones
  = if decide (near_reservoir reservoir_zones wz)
    then [WaterWarning (Petrophysics.depth_from wz)] else [].
Proof.
  induction reservoir_zones as [|rz rest IH]; cbn [scan_reservoirs].
  - rewrite decide_False; [done|]. intros H. by apply Exists_nil in H.
  - destruct (Qcltb _ (of_Z 20)) eqn:Hlt.
    + rewrite decide_True; [done|]. apply Exists_cons_hd. by apply Qcltb_lt.
    + rewrite IH. apply Qcltb_ge in Hlt.
      destruct (decide (near_reservoir rest wz)) as [H1|H1].
      * rewrite decide_True; [done|]. by apply Exists_cons_tl.
      * rewrite decide_False; [done|]. intros H2.
        apply Exists_cons in H2 as [H2|H2]; [|done].
        by apply Qclt_not_le in H2.
Qed.

Lemma proximity_warnings_filter (water_zones reservoir_zones : list Petrophysics.t) :
  proximity_warnings water_zones reservoir_zones
  = (λ wz, WaterWarning (Petrophysics.depth_from wz))
      <$> filter (near_reservoir reservoir_zones) water_zones.
Proof.
  assert (∀ wzs rzs,
            mjoin ((λ wz, scan_reservoirs wz rzs) <$> wzs)
            = (λ wz, WaterWarning (Petrophysics.depth_from wz))
                <$> filter (near_reservoir rzs) wzs) as Hloop.
  { intros wzs rzs. induction wzs as [|wz wzs IH]; [done|].
    rewrite filter_cons.
    change (mjoin ((λ wz, scan_reservoirs wz rzs) <$> (wz :: wzs)))
      with (scan_reservoirs wz rzs
            ++ mjoin ((λ wz, scan_reservoirs wz rzs) <$> wzs)).
    rewrite IH, scan_reservoirs_near.
    by destruct (decide (near_reservoir rzs wz)). }
  unfold proximity_warnings.
  destruct water_zones as [|wz wzs]; [done|].
  destruct reservoir_zones as [|rz rzs]; [|apply Hloop].
  rewrite filter_none; [done|].
  intros w H. by apply Exists_nil in H.
Qed.

Lemma proximity_warnings_all (water_zones reservoir_zones : list Petrophysics.t) :
  filter is_water_warning (proximity_warnings water_zones reservoir_zones)
  = proximity_warnings water_zones reservoir_zones.
Proof.
  rewrite proximity_warnings_filter.
  induction (filter (near_reservoir reservoir_zones) water_zones) as [|w ws IH];
    [done|].
  rewrite fmap_cons, filter_cons_True by done. by rewrite IH.
Qed.

(** C9. When the report is produced, its warnings of water encroachment
    are, in the order of the water-bearing zones, one warning for each
    water-bearing zone W for which some reservoir zone R has
    [|W.depth_from - R.depth_to| < 20], strictly, and none for the other
    zones: a zone W never has two.  The report is produced whenever the
    best reservoir zone has an effective porosity and a water saturation
    to print. *)
Theorem C9_proximity_warnings (zones : list Petrophysics.t) :
  (∀ recs,
     _generate_recommendations zones = Returns recs →
     filter is_water_warning recs
     = (λ wz, WaterWarning (Petrophysics.depth_from wz))
         <$> filter (near_reservoir (zones_of_type "reservoir" zones))
               (zones_of_type "water_bearing" zones))
  ∧ ((∀ best,
        best_zone (zones_of_type "reservoir" zones) = Some best →
        is_Some (Petrophysics.porosity_effective best)
        ∧ is_Some (Petrophysics.saturation_water best)) →
     ∃ recs, _generate_recommendations zones = Returns recs).
Proof.
  split.
  - intros recs. unfold _generate_recommendations.
    destruct zones as [|z zs] eqn:Hzones; [by intros [= <-]|].
    rewrite <- Hzones. clear Hzones z zs.
    destruct (best_zone (zones_of_type "reservoir" zones)) as [best|].
    + destruct (optimal_zone_line best) as [line|exc] eqn:Hline; [|done].
      intros [= <-].
      assert (¬ is_water_warning line) as Hnot.
      { unfold optimal_zone_line in Hline.
        destruct (Petrophysics.porosity_effective best),
          (Petrophysics.saturation_water best); try done.
        injection Hline as <-. by intros []. }
      rewrite filter_cons_False by done.
      rewrite filter_app, proximity_warnings_all.
      rewrite <- proximity_warnings_filter.
      by case_bool_decide.
    + intros [= <-]. rewrite proximity_warnings_all.
      apply proximity_warnings_filter.
  - intros Hbest. unfold _generate_recommendations.
    destruct zones as [|z zs] eqn:Hzones; [by eexists|].
    rewrite <- Hzones in *. clear Hzones z zs.
    destruct (best_zone (zones_of_type "reservoir" zones)) as [best|];
      [|by eexists].
    destruct (Hbest best eq_refl) as [[phie Hphie] [sw Hsw]].
    unfold optimal_zone_line. rewrite Hphie, Hsw. by eexists.
Qed.

Lemma C9_proximity_warnings_witness :
  (∃ recs,
     _generate_recommendations
       [Demo.shale_zone; Demo.reservoir_zone; Demo.water_zone 2935]
     = Returns recs)
  ∧ ∀ recs,
      _generate_recommendations
        [Demo.shale_zone; Demo.reservoir_zone; Demo.water_zone 2935]
      = Returns recs →
      filter is_water_warning recs = [WaterWarning (of_Z 2935)].
Proof.
  destruct (C9_proximity_warnings
              [Demo.shale_zone; Demo.reservoir_zone; Demo.water_zone 2935])
    as [Hwarn Hreturns].
  split.
  - apply Hreturns. intros best [= <-]. split; eexists; reflexivity.
  - intros recs Hrecs. rewrite (Hwarn recs Hrecs). reflexivity.
Defined.

(** The scenario of the specification: a water zone 130 m below the
    reservoir, then exactly 20 m below it, gives no warning; 15 m below it
    gives one. *)
Lemma proximity_scenario :
  proximity_warnings [Demo.water_zone 3050] [Demo.reservoir_zone] = []
  ∧ proximity_warnings [Demo.water_zone 2940] [Demo.reservoir_zone] = []
  ∧ proximity_warnings [Demo.water_zone 2935] [Demo.reservoir_zone]
    = [WaterWarning (of_Z 2935)].
Proof. repeat split; reflexivity. Qed.

(** A water zone close to two reservoir zones is warned about once. *)
Lemma proximity_single_warning :
  proximity_warnings [Demo.water_zone 2935]
    [Demo.reservoir_zone; Demo.reservoir_zone; Demo.reservoir_zone2]
  = [WaterWarning (of_Z 2935)].
Proof. reflexivity. Qed.

(** ** The best reservoir zone *)

Lemma nltb_trans (a b c : num) :
  nltb a b = true → nltb b c = true → nltb a c = true.
Proof.
  destruct a as [x| | |], b as [y| | |], c as [z| | |]; simpl; try done.
  rewrite !Qcltb_lt. apply Qclt_trans.
Qed.

Lemma nleb_nltb_trans (a b c : num) :
  nleb a b = true → nltb b c = true → nltb a c = true.
Proof.
  destruct a as [x| | |], b as [y| | |], c as [z| | |]; simpl; try done.
  rewrite Qcleb_le, !Qcltb_lt. apply Qcle_lt_trans.
Qed.

Lemma nltb_nleb (a b : num) : nltb a b = true → nleb a b = true.
Proof.
  destruct a as [x| | |], b as [y| | |]; simpl; try done.
  rewrite Qcltb_lt, Qcleb_le. apply Qclt_le_weak.
Qed.

Lemma nltb_false_nleb (a b : num) :
  is_nan a = false → is_nan b = false → nltb b a = false → nleb a b = true.
Proof.
  destruct a as [x| | |], b as [y| | |]; simpl; try done.
  intros _ _. rewrite Qcltb_ge, Qcleb_le. done.
Qed.

(** [max] keeps the first element of greatest key: every element before
    it has a smaller key, no element after it has a greater one. *)
Lemma max_from_first {A} (key : A → num) (rest pre mid : list A) (best : A) :
  Forall (λ x, is_nan (key x) = false) (best :: rest) →
  Forall (λ x, nltb (key x) (key best) = true) pre →
  Forall (λ x, nleb (key x) (key best) = true) mid →
  ∃ l1 l2,
    pre ++ best :: mid ++ rest = l1 ++ max_from key best rest :: l2
    ∧ Forall (λ x, nltb (key x) (key (max_from key best rest)) = true) l1
    ∧ Forall (λ x, nleb (key x) (key (max_from key best rest)) = true) l2.
Proof.
  revert pre mid best.
  induction rest as [|x rest IH]; intros pre mid best Hnan Hpre Hmid; simpl.
  - exists pre, mid. by rewrite app_nil_r.
  - apply Forall_cons in Hnan as [Hbest Hnan].
    apply Forall_cons in Hnan as [Hx Hrest].
    destruct (ngtb (key x) (key best)) eqn:Hgt; unfold ngtb in Hgt.
    + destruct (IH (pre ++ best :: mid) [] x) as (l1 & l2 & Heq & H1 & H2).
      * by apply Forall_cons.
      * apply Forall_app. split.
        -- eapply Forall_impl; [exact Hpre|]. intros y Hy.
           by apply nltb_trans with (key best).
        -- apply Forall_cons. split; [done|].
           eapply Forall_impl; [exact Hmid|]. intros y Hy.
           by apply nleb_nltb_trans with (key best).
      * constructor.
      * exists l1, l2. split; [|done]. rewrite <- Heq.
        by rewrite <- app_assoc.
    + destruct (IH pre (mid ++ [x]) best) as (l1 & l2 & Heq & H1 & H2).
      * by apply Forall_cons.
      * done.
      * apply Forall_app. split; [done|]. apply Forall_singleton.
        by apply nltb_false_nleb.
      * exists l1, l2. split; [|done]. rewrite <- Heq.
        by rewrite <- app_assoc.
Qed.

(** Among reservoir zones whose scores are numbers, [best_zone] is the
    first zone of greatest [zone_score]. *)
Lemma best_zone_first_max (reservoir_zones : list Petrophysics.t)
    (best : Petrophysics.t) :
  Forall (λ z, is_nan (zone_score z) = false) reservoir_zones →
  best_zone reservoir_zones = Some best →
  ∃ l1 l2,
    reservoir_zones = l1 ++ best :: l2
    ∧ Forall (λ z, nltb (zone_score z) (zone_score best) = true) l1
    ∧ Forall (λ z, nleb (zone_score z) (zone_score best) = true) l2.
Proof.
  intros Hnan. unfold best_zone, py_max.
  destruct reservoir_zones as [|z zs]; [done|].
  intros [= <-].
  destruct (max_from_first zone_score zs [] [] z Hnan)
    as (l1 & l2 & Heq & H1 & H2); [constructor | constructor |].
  by exists l1, l2.
Qed.

(** With a water saturation that is absent or not zero the key of the
    route is the score of the specification. *)
Lemma zone_score_spec (z : Petrophysics.t) :
  Petrophysics.saturation_water z ≠ Some (Fin 0) →
  zone_score z = spec_zone_score z.
Proof.
  intros Hsw. unfold zone_score, spec_zone_score.
  rewrite py_or_zero. do 2 f_equal.
  destruct (Petrophysics.saturation_water z) as [sw|]; [|done]. simpl.
  destruct sw as [q| | |]; simpl; try done.
  destruct (Qceqb q 0) eqn:Hq; simpl; [|done].
  apply Qceqb_eq in Hq. by rewrite Hq in Hsw.
Qed.

(** A zone without effective porosity, or without water saturation,
    scores 0 (the other value being finite). *)
Lemma zone_score_missing (z : Petrophysics.t) (q : Qc) :
  (Petrophysics.porosity_effective z = None
   ∧ Petrophysics.saturation_water z = Some (Fin q))
  ∨ (Petrophysics.porosity_effective z = Some (Fin q)
     ∧ Petrophysics.saturation_water z = None)
  ∨ (Petrophysics.porosity_effective z = None
     ∧ Petrophysics.saturation_water z = None) →
  zone_score z = Fin 0.
Proof.
  unfold zone_score.
  intros [[-> ->]|[[-> ->]|[-> ->]]]; simpl.
  - destruct (Qceqb q 0); simpl; f_equal; apply Qcmult_0_l.
  - destruct (Qceqb q 0); simpl; f_equal; qc2q; simpl; lra.
  - by_compute.
Qed.

(** C10. The score of a reservoir zone should be its effective porosity (0
    when absent) times one minus its water saturation (1 when absent), and
    the best zone the first of greatest score.  The key of the route,
    [(z.porosity_effective or 0) * (1 - (z.saturation_water or 1))], also
    replaces a water saturation that is present and equal to 0 by 1: a
    zone with effective porosity 0.30 and water saturation 0 gets the key 0
    instead of the score 0.30, and the route prefers to it an earlier zone
    of score 0.05. *)
Theorem C10_best_zone_zero_saturation :
  Petrophysics.saturation_water Demo.dry_zone = Some (Fin 0)
  ∧ spec_zone_score Demo.fair_zone = Fin (frac 5 100)
  ∧ spec_zone_score Demo.dry_zone = Fin (frac 30 100)
  ∧ zone_score Demo.dry_zone = Fin 0
  ∧ py_max [Demo.fair_zone; Demo.dry_zone] spec_zone_score = Some Demo.dry_zone
  ∧ best_zone [Demo.fair_zone; Demo.dry_zone] = Some Demo.fair_zone.
Proof. repeat split; first [reflexivity | by_compute]. Qed.


(** * Further properties of the routes *)

(** ** Ownership of the well *)

Lemma query_well_None (db : Database) (well_id user_id : Z) :
  query_well db well_id user_id = None
  ↔ ∀ w, w ∈ wells db → Well.id w = well_id → Well.user_id w ≠ user_id.
Proof.
  unfold query_well. split.
  - intros Hhead w Hin Hid Huser.
    destruct (filter _ (wells db)) as [|w' ws] eqn:Hf; [|done].
    assert (w ∈ filter (λ w, Well.id w = well_id ∧ Well.user_id w = user_id)
                  (wells db)) as Hw by (by apply list_elem_of_filter).
    rewrite Hf in Hw. by apply elem_of_nil in Hw.
  - intros Hnone.
    destruct (filter _ (wells db)) as [|w' ws] eqn:Hf; [done|].
    assert (w' ∈ w' :: ws) as Hw by apply list_elem_of_here.
    rewrite <- Hf in Hw. apply list_elem_of_filter in Hw as [[Hid Huser] Hin].
    by destruct (Hnone w' Hin Hid).
Qed.

(** X1. When no well with the requested identifier belongs to the
    authenticated user, every route of the analysis and of the reports
    answers 404, and the computation writes nothing: a user neither reads
    nor changes the well of another. *)
Theorem X1_foreign_well_not_found (power : Qc → Qc → Qc) (db : Database)
    (user_id well_id : Z) (data : gmap string Qc) (format : option string) :
  (∀ w, w ∈ wells db → Well.id w = well_id → Well.user_id w ≠ user_id) →
  calculate_petrophysics power db user_id well_id data = (NotFound, db)
  ∧ get_zones db user_id well_id = None
  ∧ get_suggestions db user_id well_id = None
  ∧ get_summary db user_id well_id = None
  ∧ generate_report db user_id well_id format = Returns ReportNotFound.
Proof.
  intros Hforeign. apply query_well_None in Hforeign.
  unfold calculate_petrophysics, get_zones, get_suggestions, get_summary,
    generate_report.
  by rewrite Hforeign.
Qed.

Lemma X1_foreign_well_not_found_witness :
  calculate_petrophysics power_floor Demo.db 8 1 Demo.request
  = (NotFound, Demo.db)
  ∧ get_zones Demo.db 8 1 = None
  ∧ get_suggestions Demo.db 8 1 = None
  ∧ get_summary Demo.db 8 1 = None
  ∧ generate_report Demo.db 8 1 (Some "html") = Returns ReportNotFound.
Proof.
  apply (X1_foreign_well_not_found power_floor Demo.db 8 1 Demo.request).
  intros w Hin _. apply list_elem_of_singleton in Hin as ->. discriminate.
Defined.

(** ** What a computation writes *)

(** X2. A computation never touches the wells nor the samples.  When it
    answers 201 it appends exactly the zone it answers, which is a zone of
    the requested well over the requested interval, marked [auto], with
    no permeability, gas saturation or lithology; with any other answer
    the table of zones is unchanged. *)
Theorem X2_computation_writes (power : Qc → Qc → Qc) (db db' : Database)
    (user_id well_id : Z) (data : gmap string Qc) (response : Response) :
  calculate_petrophysics power db user_id well_id data = (response, db') →
  wells db' = wells db
  ∧ well_logs db' = well_logs db
  ∧ match response with
    | Created petro interp =>
        petrophysics db' = petrophysics db ++ [petro]
        ∧ Petrophysics.well_id petro = well_id
        ∧ data !! "depth_from" = Some (Petrophysics.depth_from petro)
        ∧ data !! "depth_to" = Some (Petrophysics.depth_to petro)
        ∧ Petrophysics.calculated_by petro = "auto"
        ∧ Petrophysics.permeability petro = None
        ∧ Petrophysics.saturation_gas petro = None
        ∧ Petrophysics.lithology petro = None
    | _ => petrophysics db' = petrophysics db
    end.
Proof.
  unfold calculate_petrophysics.
  destruct (query_well db well_id user_id) as [well|]; [|by intros [= <- <-]].
  destruct (data !! "depth_from") as [df|]; [|by intros [= <- <-]].
  destruct (data !! "depth_to") as [dt|]; [|by intros [= <- <-]].
  destruct (negb (truthy (Fin df)) || negb (truthy (Fin dt)));
    [by intros [= <- <-]|].
  unfold calculate_zone.
  destruct (collect_logs db well_id df dt !! "GR") as [gr|];
    [|by intros [= <- <-]].
  intros [= <- <-]. done.
Qed.

Lemma demo_computation_created :
  ∃ petro interp db',
    calculate_petrophysics power_floor Demo.db 7 1 Demo.request
    = (Created petro interp, db').
Proof. eexists _, _, _. vm_compute. reflexivity. Defined.

Lemma X2_computation_writes_witness :
  wells (snd demo_computation) = wells Demo.db
  ∧ well_logs (snd demo_computation) = well_logs Demo.db
  ∧ match fst demo_computation with
    | Created petro interp =>
        petrophysics (snd demo_computation) = petrophysics Demo.db ++ [petro]
        ∧ Petrophysics.well_id petro = 1%Z
        ∧ Demo.request !! "depth_from" = Some (Petrophysics.depth_from petro)
        ∧ Demo.request !! "depth_to" = Some (Petrophysics.depth_to petro)
        ∧ Petrophysics.calculated_by petro = "auto"
        ∧ Petrophysics.permeability petro = None
        ∧ Petrophysics.saturation_gas petro = None
        ∧ Petrophysics.lithology petro = None
    | _ => petrophysics (snd demo_computation) = petrophysics Demo.db
    end.
Proof.
  apply (X2_computation_writes power_floor Demo.db (snd demo_computation) 7 1
           Demo.request (fst demo_computation)).
  apply surjective_pairing.
Defined.

(** ** The values a computation stores *)




Section Saturation.

Variable power : Qc → Qc → Qc.
Hypothesis power_nonneg : ∀ x y, 0 ≤ x → 0 ≤ power x y.

(** The smaller of 1 and a finite value that is not negative. *)
Lemma py_min_unit (x : Qc) :
  0 ≤ x → ∃ q, py_min (Fin 1) (Fin x) = Fin q ∧ 0 ≤ q ∧ q ≤ 1.
Proof.
  intros Hx. unfold py_min. cbn [nltb].
  destruct (Qcltb x 1) eqn:Hlt.
  - exists x. split; [done|]. split; [done|].
    apply Qcltb_lt in Hlt. by apply Qclt_le_weak.
  - exists 1. done.
Qed.

(** A computed water saturation is a number of [[0, 1]], whatever the
    resistivity readings, infinite ones included. *)
Lemma archie_unit_interval (phie : num) (rt_values : list num) (s : num) :
  phie ≠ PInf →
  archie power phie rt_values = Some s →
  ∃ q, s = Fin q ∧ 0 ≤ q ∧ q ≤ 1.
Proof.
  intros Hinf. unfold archie.
  destruct (ngtb phie (Fin 0) && ngtb (np_mean rt_values) (Fin 0))
    eqn:Hguard; [|done].
  apply andb_true_iff in Hguard as [Hp Hr].
  destruct phie as [p| | |]; try done.
  simpl in Hp. apply Qcltb_lt in Hp.
  assert (0 ≤ power p (of_Z 2)) as Hsq
    by (by apply power_nonneg, Qclt_le_weak).
  intros [= <-]. cbn [npow].
  destruct (np_mean rt_values) as [r| | |]; try done.
  - simpl in Hr. apply Qcltb_lt in Hr. cbn [nmul ndiv].
    destruct (Qceqb (power p (of_Z 2) * r) 0) eqn:Hzero.
    + exists 1. done.
    + apply Qceqb_neq in Hzero. cbn [npow]. apply py_min_unit, power_nonneg.
      assert (0 < power p (of_Z 2) * r) as Hprod.
      { destruct (Qclt_le_dec 0 (power p (of_Z 2) * r)) as [|Hle]; [done|].
        destruct Hzero. apply Qcle_antisym; [done|]. qc2q. nra. }
      apply Qclt_le_weak. qc2q. apply Qlt_shift_div_l; [done|].
      change (inject_Z 1) with 1%Q. lra.
  - cbn [nmul].
    destruct (Qceqb (power p (of_Z 2)) 0) eqn:Hzero.
    + exists 1. done.
    + apply Qceqb_neq in Hzero.
      assert (0 < power p (of_Z 2)) as Hpos.
      { destruct (Qclt_le_dec 0 (power p (of_Z 2))) as [|Hle]; [done|].
        destruct Hzero. by apply Qcle_antisym. }
      apply Qcltb_lt in Hpos as ->. cbn [inf_of_sign ndiv npow].
      apply py_min_unit, power_nonneg, Qcle_refl.
Qed.

End Saturation.

(** X4. With a power function that is not negative on bases that are not
    negative, the water saturation of a stored zone, when present, is a
    number [sw] with [0 <= sw <= 1]; the oil saturation stored beside it
    is [1 - sw] when [sw] is not 0, and absent when [sw] is 0; without
    water saturation there is no oil saturation. *)
Theorem X4_saturations_complement (power : Qc → Qc → Qc) (db db' : Database)
    (user_id well_id : Z) (data : gmap string Qc)
    (petro : Petrophysics.t) (interp : Interpretation) :
  (∀ x y, 0 ≤ x → 0 ≤ power x y) →
  calculate_petrophysics power db user_id well_id data
  = (Created petro interp, db') →
  match Petrophysics.saturation_water petro with
  | Some sw =>
      ∃ q, sw = Fin q ∧ 0 ≤ q ∧ q ≤ 1
           ∧ Petrophysics.saturation_oil petro
             = if Qceqb q 0 then None else Some (Fin (1 - q))
  | None => Petrophysics.saturation_oil petro = None
  end.
Proof.
  intros Hnonneg Hcreated.
  pose proof Hcreated as Hinv.
  apply calculate_petrophysics_created in Hinv
    as (df & dt & Hdf & Hdt & Hnf & Hnt & Hzone & _).
  destruct Hzone as (gr & Hgr & _ & _ & _ & Hvsh & Hphi & Hphie & Hsw & _).
  assert (Petrophysics.saturation_oil petro
          = match Petrophysics.saturation_water petro with
            | Some sw => if truthy sw then Some (nsub (Fin 1) sw) else None
            | None => None
            end) as Hoil.
  { revert Hcreated. unfold calculate_petrophysics.
    destruct (query_well db well_id user_id) as [well|]; [|done].
    rewrite Hdf, Hdt.
    destruct (negb (truthy (Fin df)) || negb (truthy (Fin dt))); [done|].
    unfold calculate_zone.
    destruct (collect_logs db well_id df dt !! "GR"); [|done].
    by intros [= <- _ _]. }
  destruct (Petrophysics.saturation_water petro) as [sw|] eqn:Esw; [|done].
  destruct (log_entry (query_logs db well_id "RESIS" df dt)) as [r|]; [|done].
  destruct (Petrophysics.porosity_effective petro) as [phie|] eqn:Ephie; [|done].
  destruct (truthy phie); [|done]. symmetry in Hsw.
  destruct (archie_unit_interval power Hnonneg phie (np_array (values r)) sw)
    as (q & -> & Hq0 & Hq1); [|done|].
  - destruct (Petrophysics.porosity petro) as [phi|] eqn:Ephi; [|done].
    injection Hphie as ->.
    destruct (log_entry (query_logs db well_id "DENS" df dt)) as [d|] eqn:Ed;
      [|done].
    injection Hphi as ->.
    pose proof (porosity_bounded (np_array (values d)) (rho_matrix_of data)
                  (rho_fluid_of data)) as Hb.
    pose proof (vshale_mean_bounded power (np_array (values gr))
                  (gr_clean_of data) (gr_shale_of data)) as Hv.
    specialize (Hb (np_array_nonempty _ (log_entry_values _ _ Ed))).
    specialize (Hv (np_array_nonempty _ (log_entry_values _ _ Hgr))).
    destruct (porosity_of _ _ _) as [p| | |];
      destruct (vshale_mean_of power _ _ _) as [v| | |]; done.
  - exists q. repeat split; try done.
    rewrite Hoil. cbn [truthy nsub]. by destruct (Qceqb q 0).
Qed.

Lemma power_floor_nonneg (x y : Qc) : 0 ≤ x → 0 ≤ power_floor x y.
Proof.
  intros Hx. unfold power_floor.
  induction (Z.to_nat (Qfloor y)) as [|n IH]; simpl; [done|].
  qc2q. nra.
Qed.

Lemma X4_saturations_complement_witness :
  match fst demo_computation with
  | Created petro interp =>
      match Petrophysics.saturation_water petro with
      | Some sw =>
          ∃ q, sw = Fin q ∧ 0 ≤ q ∧ q ≤ 1
               ∧ Petrophysics.saturation_oil petro
                 = if Qceqb q 0 then None else Some (Fin (1 - q))
      | None => Petrophysics.saturation_oil petro = None
      end
  | _ => False
  end.
Proof.
  destruct demo_computation_created as (petro & interp & db' & Hcreated).
  unfold demo_computation. rewrite Hcreated. simpl.
  exact (X4_saturations_complement power_floor Demo.db db' 7 1 Demo.request
           petro interp power_floor_nonneg Hcreated).
Defined.

(** X5. A zone stored with the type [reservoir] is complete: its clay
    volume is below 0.3, it has a porosity, a positive effective porosity
    and a water saturation that is not zero and below 0.5 (and so an oil
    saturation). *)
Theorem X5_reservoir_zone_complete (power : Qc → Qc → Qc) (db db' : Database)
    (user_id well_id : Z) (data : gmap string Qc)
    (petro : Petrophysics.t) (interp : Interpretation) :
  calculate_petrophysics power db user_id well_id data
  = (Created petro interp, db') →
  Petrophysics.zone_type petro = Some "reservoir" →
  ∃ vsh phi phie sw,
    Petrophysics.vshale petro = Some vsh ∧ nltb vsh (frac 3 10) = true
    ∧ Petrophysics.porosity petro = Some phi
    ∧ Petrophysics.porosity_effective petro = Some phie
    ∧ ngtb phie (Fin 0) = true
    ∧ Petrophysics.saturation_water petro = Some sw
    ∧ truthy sw = true ∧ nltb sw (frac 5 10) = true.
Proof.
  intros Hcreated Hres.
  apply calculate_petrophysics_created in Hcreated
    as (df & dt & _ & _ & _ & _ & Hzone & _).
  destruct Hzone as (gr & Hgr & _ & _ & _ & Hvsh & Hphi & Hphie & Hsw & Htype).
  rewrite Htype in Hres. injection Hres as Hres. unfold classify_zone in Hres.
  destruct (nltb _ (frac 3 10)) eqn:Hv; [|done].
  destruct (Petrophysics.saturation_water petro) as [sw|]; [|done].
  destruct (truthy sw && nltb sw (frac 5 10)) eqn:Hs; [|done].
  apply andb_true_iff in Hs as [Hs1 Hs2].
  destruct (log_entry (query_logs db well_id "RESIS" df dt)) as [r|]; [|done].
  destruct (Petrophysics.porosity_effective petro) as [phie|]; [|done].
  destruct (Petrophysics.porosity petro) as [phi|]; [|done].
  destruct (truthy phie); [|done].
  eexists _, phi, phie, sw. repeat split; try done.
  symmetry in Hsw. unfold archie in Hsw.
  destruct (ngtb phie (Fin 0)); [done|]. done.
Qed.

Lemma demo_reservoir_computation_created :
  ∃ petro interp db',
    calculate_petrophysics power_approx Demo.db 7 1 Demo.request
    = (Created petro interp, db')
    ∧ Petrophysics.zone_type petro = Some "reservoir".
Proof. eexists _, _, _. split; [vm_compute; reflexivity | reflexivity]. Defined.

Lemma X5_reservoir_zone_complete_witness :
  match fst demo_reservoir_computation with
  | Created petro interp =>
      ∃ vsh phi phie sw,
        Petrophysics.vshale petro = Some vsh ∧ nltb vsh (frac 3 10) = true
        ∧ Petrophysics.porosity petro = Some phi
        ∧ Petrophysics.porosity_effective petro = Some phie
        ∧ ngtb phie (Fin 0) = true
        ∧ Petrophysics.saturation_water petro = Some sw
        ∧ truthy sw = true ∧ nltb sw (frac 5 10) = true
  | _ => False
  end.
Proof.
  destruct demo_reservoir_computation_created
    as (petro & interp & db' & Hcreated & Hres).
  unfold demo_reservoir_computation. rewrite Hcreated. simpl.
  exact (X5_reservoir_zone_complete power_approx Demo.db db' 7 1 Demo.request
           petro interp Hcreated Hres).
Defined.

(** ** When the report fails *)

Lemma max_from_elem {A} (key : A → num) (best : A) (l : list A) :
  max_from key best l ∈ best :: l.
Proof.
  revert best. induction l as [|x l IH]; intros best; simpl.
  - apply list_elem_of_here.
  - destruct (ngtb (key x) (key best)).
    + apply list_elem_of_further, IH.
    + specialize (IH best). apply elem_of_cons in IH as [->|IH].
      * apply list_elem_of_here.
      * by do 2 apply list_elem_of_further.
Qed.

Lemma best_zone_elem (reservoir_zones : list Petrophysics.t)
    (best : Petrophysics.t) :
  best_zone reservoir_zones = Some best → best ∈ reservoir_zones.
Proof.
  unfold best_zone, py_max. destruct reservoir_zones as [|z zs]; [done|].
  intros [= <-]. apply max_from_elem.
Qed.

(** X6. The recommendations of the report raise an exception exactly when
    the well has a reservoir zone and the best one lacks its effective
    porosity or its water saturation, which the line of the optimal zone
    formats; the exception is then a [TypeError].  In every other case,
    the empty list of zones included, the call returns. *)
Theorem X6_recommendations_raise (zones : list Petrophysics.t) :
  (∀ exc, _generate_recommendations zones = Raises exc → exc = "TypeError")
  ∧ ((∃ exc, _generate_recommendations zones = Raises exc)
     ↔ ∃ best,
         best_zone (zones_of_type "reservoir" zones) = Some best
         ∧ (Petrophysics.porosity_effective best = None
            ∨ Petrophysics.saturation_water best = None)).
Proof.
  unfold _generate_recommendations.
  destruct zones as [|z zs] eqn:Hzones.
  { split; [done|]. split; [by intros [exc H]|]. by intros (best & H & _). }
  rewrite <- Hzones. clear Hzones z zs.
  destruct (best_zone (zones_of_type "reservoir" zones)) as [best|].
  - unfold optimal_zone_line.
    destruct (Petrophysics.porosity_effective best) as [phie|] eqn:Ephie,
      (Petrophysics.saturation_water best) as [sw|] eqn:Esw.
    + split; [done|]. split; [by intros [exc H]|].
      intros (b & [= <-] & [H|H]); congruence.
    + split; [by intros exc [= <-]|]. split; [|by eexists].
      intros _. exists best. by split; [|right].
    + split; [by intros exc [= <-]|]. split; [|by eexists].
      intros _. exists best. by split; [|left].
    + split; [by intros exc [= <-]|]. split; [|by eexists].
      intros _. exists best. by split; [|left].
  - split; [done|]. split; [by intros [exc H]|]. by intros (best & H & _).
Qed.

(** ** Queries in depth order *)

Lemma insert_by_sorted {A} (key : A → Qc) (x : A) (l : list A) :
  StronglySorted (λ a b, key a ≤ key b) l →
  StronglySorted (λ a b, key a ≤ key b) (insert_by key x l).
Proof.
  induction 1 as [|y l Hl IH Hy]; simpl.
  - repeat constructor.
  - destruct (Qcleb (key x) (key y)) eqn:Hxy.
    + apply Qcleb_le in Hxy. constructor; [by constructor|].
      constructor; [done|].
      eapply Forall_impl; [exact Hy|]. intros z Hz. simpl in *.
      by apply Qcle_trans with (key y).
    + apply Qcleb_gt in Hxy. constructor; [done|].
      rewrite insert_by_perm. constructor; [|done].
      by apply Qclt_le_weak.
Qed.

Lemma order_by_sorted {A} (key : A → Qc) (l : list A) :
  StronglySorted (λ a b, key a ≤ key b) (order_by key l).
Proof.
  unfold order_by. induction l as [|x l IH]; simpl; [constructor|].
  by apply insert_by_sorted.
Qed.

(** A row that the filter rejects does not change the query. *)
Lemma filter_app_rejected {A} (P : A → Prop) `{!∀ x, Decision (P x)}
    (l : list A) (x : A) :
  ¬ P x → filter P (l ++ [x]) = filter P l.
Proof.
  intros Hx. rewrite filter_app, (filter_cons_False _ x) by done.
  by rewrite filter_nil, app_nil_r.
Qed.

(** X7. The samples a computation extracts for one curve are exactly the
    samples of that well and curve whose depth lies in the interval, bounds
    included, each as many times as it is stored, in ascending order of
    depth. *)
Theorem X7_extraction_contract (db : Database) (well_id : Z)
    (log_type : string) (depth_from depth_to : Qc) :
  StronglySorted (λ a b, WellLog.depth a ≤ WellLog.depth b)
    (query_logs db well_id log_type depth_from depth_to)
  ∧ query_logs db well_id log_type depth_from depth_to
    ≡ₚ filter (λ l, WellLog.well_id l = well_id
                    ∧ WellLog.log_type l = log_type
                    ∧ depth_from ≤ WellLog.depth l
                    ∧ WellLog.depth l ≤ depth_to)
         (well_logs db)
  ∧ ∀ l, l ∈ query_logs db well_id log_type depth_from depth_to
         ↔ l ∈ well_logs db
           ∧ WellLog.well_id l = well_id ∧ WellLog.log_type l = log_type
           ∧ depth_from ≤ WellLog.depth l ∧ WellLog.depth l ≤ depth_to.
Proof.
  assert (query_logs db well_id log_type depth_from depth_to
          ≡ₚ filter (λ l, WellLog.well_id l = well_id
                          ∧ WellLog.log_type l = log_type
                          ∧ depth_from ≤ WellLog.depth l
                          ∧ WellLog.depth l ≤ depth_to)
               (well_logs db)) as Hperm.
  { unfold query_logs. rewrite order_by_perm, list_filter_filter.
    apply reflexive_eq, list_filter_iff. intros l. tauto. }
  split; [apply order_by_sorted|]. split; [exact Hperm|].
  intros l. rewrite Hperm, list_elem_of_filter. tauto.
Qed.

(** ** Listing the zones *)

(** X8. For a well of the user the list of zones is answered with exactly
    the stored zones of that well, each once per row, in ascending order
    of [depth_from]. *)
Theorem X8_zones_listed (db : Database) (user_id well_id : Z) (well : Well.t) :
  query_well db well_id user_id = Some well →
  ∃ zones,
    get_zones db user_id well_id = Some zones
    ∧ StronglySorted
        (λ a b, Petrophysics.depth_from a ≤ Petrophysics.depth_from b) zones
    ∧ zones ≡ₚ filter (λ z, Petrophysics.well_id z = well_id) (petrophysics db).
Proof.
  intros Hwell. unfold get_zones. rewrite Hwell. eexists. split; [done|].
  split; [apply order_by_sorted | apply order_by_perm].
Qed.

Lemma X8_zones_listed_witness :
  ∃ zones,
    get_zones (snd demo_computation) 7 1 = Some zones
    ∧ StronglySorted
        (λ a b, Petrophysics.depth_from a ≤ Petrophysics.depth_from b) zones
    ∧ zones ≡ₚ filter (λ z, Petrophysics.well_id z = 1%Z)
                 (petrophysics (snd demo_computation)).
Proof.
  apply (X8_zones_listed (snd demo_computation) 7 1 Demo.well). reflexivity.
Defined.

(** X9. After a computation answered 201, the list of zones of the same
    well holds the new zone together with the zones it held before, and
    the zones of every other well are listed as before. *)
Theorem X9_computed_zone_listed (power : Qc → Qc → Qc) (db db' : Database)
    (user_id well_id : Z) (data : gmap string Qc)
    (petro : Petrophysics.t) (interp : Interpretation) :
  calculate_petrophysics power db user_id well_id data
  = (Created petro interp, db') →
  (∃ before after,
     get_zones db user_id well_id = Some before
     ∧ get_zones db' user_id well_id = Some after
     ∧ after ≡ₚ petro :: before
     ∧ petro ∈ after)
  ∧ ∀ other_user other_well,
      other_well ≠ well_id →
      get_zones db' other_user other_well = get_zones db other_user other_well.
Proof.
  intros Hcreated.
  assert (∃ well, query_well db well_id user_id = Some well) as [well Hwell].
  { revert Hcreated. unfold calculate_petrophysics.
    destruct (query_well db well_id user_id); [by eexists | done]. }
  apply calculate_petrophysics_created in Hcreated
    as (df & dt & _ & _ & _ & _ & Hzone & ->).
  destruct Hzone as (_ & _ & Hid & _).
  assert (∀ user w, query_well (session_add db petro) w user = query_well db w user)
    as Hwells by done.
  split.
  - unfold get_zones. rewrite Hwells, Hwell.
    assert (query_zones (session_add db petro) well_id
            ≡ₚ petro :: query_zones db well_id) as Hperm.
    { unfold query_zones. rewrite !order_by_perm. simpl.
      rewrite filter_app, filter_cons_True by done.
      rewrite filter_nil. by rewrite <- Permutation_cons_append. }
    eexists _, _. repeat split; [done|].
    rewrite Hperm. apply list_elem_of_here.
  - intros other_user other_well Hother. unfold get_zones. rewrite Hwells.
    unfold query_zones. simpl.
    rewrite filter_app_rejected; [done|]. by rewrite Hid.
Qed.

Lemma X9_computed_zone_listed_witness :
  match fst demo_computation with
  | Created petro interp =>
      ∃ before after,
        get_zones Demo.db 7 1 = Some before
        ∧ get_zones (snd demo_computation) 7 1 = Some after
        ∧ after ≡ₚ petro :: before
        ∧ petro ∈ after
  | _ => False
  end.
Proof.
  destruct demo_computation_created as (petro & interp & db' & Hcreated).
  unfold demo_computation. rewrite Hcreated. simpl.
  exact (proj1 (X9_computed_zone_listed power_floor Demo.db db' 7 1
                  Demo.request petro interp Hcreated)).
Defined.

(** ** Reports after computations *)

Lemma reservoirs_printable_recommendations (zones : list Petrophysics.t) :
  reservoirs_printable zones →
  ∃ recs, _generate_recommendations zones = Returns recs.
Proof.
  intros Hprint. unfold _generate_recommendations.
  destruct zones as [|z zs] eqn:Hzones; [by eexists|].
  rewrite <- Hzones in *. clear Hzones z zs.
  destruct (best_zone (zones_of_type "reservoir" zones)) as [best|] eqn:Hbest;
    [|by eexists].
  apply best_zone_elem, list_elem_of_filter in Hbest as [Htype Hin].
  unfold reservoirs_printable in Hprint. rewrite Forall_forall in Hprint.
  destruct (Hprint best Hin Htype) as [[phie Hphie] [sw Hsw]].
  unfold optimal_zone_line. rewrite Hphie, Hsw. by eexists.
Qed.

(** A zone stored with the type [reservoir] has the two values the report
    prints. *)
Lemma created_reservoir_printable (power : Qc → Qc → Qc) (db db' : Database)
    (user_id well_id : Z) (data : gmap string Qc)
    (petro : Petrophysics.t) (interp : Interpretation) :
  calculate_petrophysics power db user_id well_id data
  = (Created petro interp, db') →
  Petrophysics.zone_type petro = Some "reservoir" →
  is_Some (Petrophysics.porosity_effective petro)
  ∧ is_Some (Petrophysics.saturation_water petro).
Proof.
  intros Hcreated Hres.
  apply calculate_petrophysics_created in Hcreated
    as (df & dt & _ & _ & _ & _ & Hzone & _).
  destruct Hzone as (gr & _ & _ & _ & _ & _ & _ & _ & Hsw & Htype).
  rewrite Htype in Hres. injection Hres as Hres. unfold classify_zone in Hres.
  destruct (nltb _ (frac 3 10)); [|done].
  destruct (Petrophysics.saturation_water petro) as [sw|]; [|done].
  destruct (log_entry (query_logs db well_id "RESIS" df dt)) as [r|]; [|done].
  by destruct (Petrophysics.porosity_effective petro) as [phie|].
Qed.

(** X10. If every reservoir zone of the table has an effective porosity
    and a water saturation, this still holds after any computation,
    whatever its answer, and the report of every well is then produced
    without exception, in both formats. *)
Theorem X10_reports_after_computations (power : Qc → Qc → Qc)
    (db db' : Database) (user_id well_id : Z) (data : gmap string Qc)
    (response : Response) :
  reservoirs_printable (petrophysics db) →
  calculate_petrophysics power db user_id well_id data = (response, db') →
  reservoirs_printable (petrophysics db')
  ∧ ∀ reader well format,
      ∃ answer, generate_report db' reader well format = Returns answer.
Proof.
  intros Hprint Hcalc.
  assert (reservoirs_printable (petrophysics db')) as Hprint'.
  { destruct response as [| |petro interp].
    - apply calculate_petrophysics_error_unchanged in Hcalc as ->; done.
    - apply calculate_petrophysics_error_unchanged in Hcalc as ->; done.
    - pose proof Hcalc as Hinv.
      apply calculate_petrophysics_created in Hinv as (_ & _ & _ & _ & _ & _ & _ & ->).
      unfold reservoirs_printable. simpl. apply Forall_app. split; [done|].
      apply Forall_singleton. intros Hres.
      exact (created_reservoir_printable power db _ user_id well_id data
               petro interp Hcalc Hres). }
  split; [done|].
  intros reader well format. unfold generate_report.
  destruct (query_well db' well reader) as [w|]; [|by eexists].
  unfold _build_report_data.
  destruct (reservoirs_printable_recommendations (query_zones db' (Well.id w)))
    as [recs ->].
  - unfold reservoirs_printable, query_zones. rewrite order_by_perm.
    apply Forall_forall. intros z Hz. apply list_elem_of_filter in Hz as [_ Hz].
    unfold reservoirs_printable in Hprint'. rewrite Forall_forall in Hprint'.
    by apply Hprint'.
  - by destruct (bool_decide _); eexists.
Qed.

Lemma X10_reports_after_computations_witness :
  reservoirs_printable (petrophysics (snd demo_reservoir_computation))
  ∧ ∀ reader well format,
      ∃ answer,
        generate_report (snd demo_reservoir_computation) reader well format
        = Returns answer.
Proof.
  apply (X10_reports_after_computations power_approx Demo.db
           (snd demo_reservoir_computation) 7 1 Demo.request
           (fst demo_reservoir_computation)).
  - constructor.
  - apply surjective_pairing.
Defined.

(** ** The samples a computation reads *)

Lemma query_logs_unread (db : Database) (well_id : Z) (log_type : string)
    (depth_from depth_to : Qc) (l : WellLog.t) :
  ¬ (WellLog.well_id l = well_id ∧ WellLog.log_type l = log_type
     ∧ depth_from ≤ WellLog.depth l ∧ WellLog.depth l ≤ depth_to) →
  query_logs (session_add_log db l) well_id log_type depth_from depth_to
  = query_logs db well_id log_type depth_from depth_to.
Proof.
  intros Hno. unfold query_logs. simpl. f_equal.
  destruct (decide (WellLog.well_id l = well_id ∧ WellLog.log_type l = log_type))
    as [Hm|Hm].
  - rewrite filter_app, (filter_cons_True _ l), filter_nil by done.
    apply filter_app_rejected. tauto.
  - by rewrite filter_app_rejected.
Qed.

Lemma calculate_zone_same_curves (power : Qc → Qc → Qc) (db1 db2 : Database)
    (well_id : Z) (depth_from depth_to : Qc) (data : gmap string Qc) :
  petrophysics db1 = petrophysics db2 →
  (∀ t, t ∈ ["GR"; "DENS"; "RESIS"] →
        query_logs db1 well_id t depth_from depth_to
        = query_logs db2 well_id t depth_from depth_to) →
  fst (calculate_zone power db1 well_id depth_from depth_to data)
  = fst (calculate_zone power db2 well_id depth_from depth_to data)
  ∧ petrophysics (snd (calculate_zone power db1 well_id depth_from depth_to data))
    = petrophysics (snd (calculate_zone power db2 well_id depth_from depth_to data)).
Proof.
  intros Hzones Hsame. unfold calculate_zone.
  rewrite !collect_logs_lookup by set_solver.
  rewrite !Hsame by set_solver.
  destruct (log_entry (query_logs db2 well_id "GR" depth_from depth_to));
    simpl; [|done].
  by rewrite Hzones.
Qed.

(** X11. A computation reads only the gamma-ray, density and resistivity
    samples of its well inside its interval: storing one more sample that
    is of another well, of another curve (neutron, spontaneous potential,
    caliper) or outside the interval changes neither the answer nor the
    zones stored. *)
Theorem X11_unread_samples (power : Qc → Qc → Qc) (db : Database)
    (user_id well_id : Z) (data : gmap string Qc) (l : WellLog.t) :
  (∀ depth_from depth_to,
     data !! "depth_from" = Some depth_from →
     data !! "depth_to" = Some depth_to →
     ¬ sample_read well_id depth_from depth_to l) →
  fst (calculate_petrophysics power (session_add_log db l) user_id well_id data)
  = fst (calculate_petrophysics power db user_id well_id data)
  ∧ petrophysics
      (snd (calculate_petrophysics power (session_add_log db l) user_id
              well_id data))
    = petrophysics (snd (calculate_petrophysics power db user_id well_id data)).
Proof.
  intros Hunread. unfold calculate_petrophysics.
  change (query_well (session_add_log db l) well_id user_id)
    with (query_well db well_id user_id).
  destruct (query_well db well_id user_id) as [well|]; [|done].
  destruct (data !! "depth_from") as [df|]; [|done].
  destruct (data !! "depth_to") as [dt|]; [|done].
  destruct (negb (truthy (Fin df)) || negb (truthy (Fin dt))); [done|].
  apply calculate_zone_same_curves; [done|].
  intros t Ht. apply query_logs_unread.
  intros (Hw & Htype & Hdepth). apply (Hunread df dt eq_refl eq_refl).
  unfold sample_read. by rewrite Htype.
Qed.

Lemma X11_unread_samples_witness :
  fst (calculate_petrophysics power_floor
         (session_add_log Demo.db (Demo.sample "NEUT" 100 (frac 15 100)))
         7 1 Demo.request)
  = fst (calculate_petrophysics power_floor Demo.db 7 1 Demo.request)
  ∧ fst (calculate_petrophysics power_floor
           (session_add_log Demo.db (Demo.sample "GR" 150 (of_Z 140)))
           7 1 Demo.request)
    = fst (calculate_petrophysics power_floor Demo.db 7 1 Demo.request).
Proof.
  split.
  - apply (X11_unread_samples power_floor Demo.db 7 1 Demo.request).
    intros df dt _ _ (_ & Htype & _). simpl in Htype.
    rewrite !elem_of_cons, elem_of_nil in Htype.
    destruct Htype as [H|[H|[H|H]]]; done.
  - apply (X11_unread_samples power_floor Demo.db 7 1 Demo.request).
    intros df dt _ [= <-] (_ & _ & _ & Hdepth). revert Hdepth. by vm_compute.
Defined.

(** X12. A stored zone has its bounds in order, so its thickness is not
    negative: some gamma-ray sample of the well lies between them. *)
Theorem X12_stored_zone_ordered (power : Qc → Qc → Qc) (db db' : Database)
    (user_id well_id : Z) (data : gmap string Qc)
    (petro : Petrophysics.t) (interp : Interpretation) :
  calculate_petrophysics power db user_id well_id data
  = (Created petro interp, db') →
  (∃ l, l ∈ well_logs db
        ∧ WellLog.well_id l = well_id ∧ WellLog.log_type l = "GR"
        ∧ Petrophysics.depth_from petro ≤ WellLog.depth l
        ∧ WellLog.depth l ≤ Petrophysics.depth_to petro)
  ∧ Petrophysics.depth_from petro ≤ Petrophysics.depth_to petro
  ∧ 0 ≤ Petrophysics.thickness petro.
Proof.
  intros Hcreated.
  apply calculate_petrophysics_created in Hcreated
    as (df & dt & _ & _ & _ & _ & Hzone & _).
  destruct Hzone as (gr & Hgr & _ & Hfrom & Hto & _).
  unfold Petrophysics.thickness. rewrite Hfrom, Hto.
  destruct (query_logs db well_id "GR" df dt) as [|l ls] eqn:Hq; [done|].
  assert (l ∈ query_logs db well_id "GR" df dt) as Hin.
  { rewrite Hq. apply list_elem_of_here. }
  unfold query_logs in Hin. rewrite order_by_perm in Hin.
  apply list_elem_of_filter in Hin as [[H1 H2] Hin].
  apply list_elem_of_filter in Hin as [[H3 H4] Hin].
  assert (df ≤ dt) as Hle by (by apply Qcle_trans with (WellLog.depth l)).
  split; [by exists l|]. split; [done|].
  qc2q. lra.
Qed.

Lemma X12_stored_zone_ordered_witness :
  match fst demo_computation with
  | Created petro interp =>
      (∃ l, l ∈ well_logs Demo.db
            ∧ WellLog.well_id l = 1%Z ∧ WellLog.log_type l = "GR"
            ∧ Petrophysics.depth_from petro ≤ WellLog.depth l
            ∧ WellLog.depth l ≤ Petrophysics.depth_to petro)
      ∧ Petrophysics.depth_from petro ≤ Petrophysics.depth_to petro
      ∧ 0 ≤ Petrophysics.thickness petro
  | _ => False
  end.
Proof.
  destruct demo_computation_created as (petro & interp & db' & Hcreated).
  unfold demo_computation. rewrite Hcreated. simpl.
  exact (X12_stored_zone_ordered power_floor Demo.db db' 7 1 Demo.request
           petro interp Hcreated).
Defined.

(** ** The reservoir flag, as computed *)

Lemma ngtb_truthy (x : num) (c : Qc) :
  0 ≤ c → ngtb x (Fin c) = true → truthy x = true.
Proof.
  intros Hc. destruct x as [q| | |]; simpl; try done.
  unfold ngtb. simpl. rewrite Qcltb_lt. intros Hlt.
  apply negb_true_iff, Qceqb_neq. intros ->.
  by apply (Qcle_not_lt _ _ Hc).
Qed.

(** X13. The flag [is_reservoir] of a zone is true exactly when the zone
    has a porosity above 0.10, a clay volume below 0.40 and different from
    zero, and a water saturation below 0.60 and different from zero.  In
    particular a zone whose clay volume or water saturation is exactly 0,
    or [nan], is never flagged. *)
Theorem X13_is_reservoir_exact (z : Petrophysics.t) :
  Petrophysics.is_reservoir z = true
  ↔ ∃ phi vsh sw,
      Petrophysics.porosity z = Some phi
      ∧ Petrophysics.vshale z = Some vsh
      ∧ Petrophysics.saturation_water z = Some sw
      ∧ ngtb phi (frac 10 100) = true
      ∧ vsh ≠ Fin 0 ∧ nltb vsh (frac 40 100) = true
      ∧ sw ≠ Fin 0 ∧ nltb sw (frac 60 100) = true.
Proof.
  assert (∀ x : num, truthy x = true ↔ x ≠ Fin 0) as Htruthy.
  { intros [q| | |]; simpl; try done.
    rewrite negb_true_iff, Qceqb_neq. split; [congruence|].
    intros H ->. by apply H. }
  unfold Petrophysics.is_reservoir. split.
  - destruct (Petrophysics.porosity z) as [phi|]; [|done].
    destruct (Petrophysics.vshale z) as [vsh|]; [|done].
    destruct (Petrophysics.saturation_water z) as [sw|]; [|done].
    destruct (truthy phi && truthy vsh && truthy sw) eqn:Ht; [|done].
    apply andb_true_iff in Ht as [Ht Hsw].
    apply andb_true_iff in Ht as [_ Hvsh].
    intros H. apply andb_true_iff in H as [H H3].
    apply andb_true_iff in H as [H1 H2].
    exists phi, vsh, sw. rewrite <- !Htruthy. done.
  - intros (phi & vsh & sw & -> & -> & -> & H1 & Hv & H2 & Hs & H3).
    apply Htruthy in Hv, Hs. rewrite Hv, Hs, H1, H2, H3.
    by rewrite (ngtb_truthy phi (frac 10 100)).
Qed.

(** ** Net-to-gross and averages of the summary *)




(** ** The order of the rows does not matter to the summary *)

Lemma nadd_comm (x y : num) : nadd x y = nadd y x.
Proof.
  destruct x as [a| | |], y as [b| | |]; simpl; try done.
  by rewrite Qcplus_comm.
Qed.

Lemma nadd_assoc (x y z : num) : nadd x (nadd y z) = nadd (nadd x y) z.
Proof.
  destruct x as [a| | |], y as [b| | |], z as [c| | |]; simpl; try done.
  by rewrite Qcplus_assoc.
Qed.

Lemma nadd_0_r (x : num) : nadd x (Fin 0) = x.
Proof. destruct x as [a| | |]; simpl; try done. by rewrite Qcplus_0_r. Qed.

Lemma foldl_nadd_acc (l : list num) (acc : num) :
  foldl nadd acc l = nadd acc (foldl nadd (Fin 0) l).
Proof.
  revert acc. induction l as [|x l IH]; intros acc; cbn [foldl].
  - by rewrite nadd_0_r.
  - rewrite IH, (IH (nadd (Fin 0) x)).
    by rewrite (nadd_comm (Fin 0) x), nadd_0_r, nadd_assoc.
Qed.

Lemma py_sum_cons (x : num) (l : list num) :
  py_sum (x :: l) = nadd x (py_sum l).
Proof.
  unfold py_sum. cbn [foldl].
  by rewrite foldl_nadd_acc, (nadd_comm (Fin 0) x), nadd_0_r.
Qed.

Lemma py_sum_perm (l1 l2 : list num) : l1 ≡ₚ l2 → py_sum l1 = py_sum l2.
Proof.
  induction 1 as [|x l1 l2 _ IH|x y l|l1 l2 l3 _ IH1 _ IH2].
  - done.
  - by rewrite !py_sum_cons, IH.
  - rewrite !py_sum_cons, !nadd_assoc. by rewrite (nadd_comm y x).
  - by rewrite IH1.
Qed.

Lemma py_sum_fin_perm (l1 l2 : list Qc) :
  l1 ≡ₚ l2 → py_sum_fin l1 = py_sum_fin l2.
Proof.
  induction 1 as [|x l1 l2 _ IH|x y l|l1 l2 l3 _ IH1 _ IH2].
  - done.
  - by rewrite !py_sum_fin_cons, IH.
  - rewrite !py_sum_fin_cons, !Qcplus_assoc. by rewrite (Qcplus_comm y x).
  - by rewrite IH1.
Qed.

Lemma average_over_perm (column : Petrophysics.t → option num)
    (l1 l2 : list Petrophysics.t) :
  l1 ≡ₚ l2 → average_over column l1 = average_over column l2.
Proof.
  intros Hperm. unfold average_over.
  destruct l1 as [|z1 l1], l2 as [|z2 l2]; [done| | |].
  - by apply Permutation_nil_cons in Hperm.
  - symmetry in Hperm. by apply Permutation_nil_cons in Hperm.
  - rewrite (py_sum_perm _ ((λ z, py_or (column z) (Fin 0)) <$> z2 :: l2))
      by (by apply fmap_Permutation).
    by rewrite (Permutation_length Hperm).
Qed.

(** X15. Rounding of the float sums aside, the synthesis of the summary
    does not depend on the order in which the zones are given: two lists
    with the same rows in any order have the same total and reservoir
    thickness, the same net-to-gross and the same averages, [nan] and
    infinite values included.  Rows of equal [depth_from], which the query
    may return in either order, change the summary by rounding at most. *)
Theorem X15_summary_order_independent (zones zones' : list Petrophysics.t) :
  zones ≡ₚ zones' →
  total_thickness zones = total_thickness zones'
  ∧ reservoir_thickness zones = reservoir_thickness zones'
  ∧ net_to_gross zones = net_to_gross zones'
  ∧ avg_porosity zones = avg_porosity zones'
  ∧ avg_sw zones = avg_sw zones'.
Proof.
  intros Hperm.
  assert (zones_of_type "reservoir" zones ≡ₚ zones_of_type "reservoir" zones')
    as Hres by (unfold zones_of_type; by rewrite Hperm).
  assert (∀ l1 l2, l1 ≡ₚ l2 → total_thickness l1 = total_thickness l2) as Htot.
  { intros l1 l2 H. unfold total_thickness.
    apply py_sum_fin_perm. by apply fmap_Permutation. }
  assert (total_thickness zones = total_thickness zones') as H1 by auto.
  assert (reservoir_thickness zones = reservoir_thickness zones') as H2
    by (unfold reservoir_thickness; auto).
  repeat split; try done.
  - unfold net_to_gross. by rewrite H1, H2.
  - unfold avg_porosity. by apply average_over_perm.
  - unfold avg_sw. by apply average_over_perm.
Qed.

Lemma X15_summary_order_independent_witness :
  net_to_gross [Demo.reservoir_zone; Demo.shale_zone]
  = net_to_gross [Demo.shale_zone; Demo.reservoir_zone]
  ∧ avg_porosity [Demo.reservoir_zone; Demo.shale_zone]
    = avg_porosity [Demo.shale_zone; Demo.reservoir_zone].
Proof.
  destruct (X15_summary_order_independent
              [Demo.reservoir_zone; Demo.shale_zone]
              [Demo.shale_zone; Demo.reservoir_zone])
    as (_ & _ & Hntg & Hphi & _); [apply Permutation_swap|].
  split; [exact Hntg | exact Hphi].
Defined.

(** ** The optimal zone of the report *)

(** X16. When no key is [nan], the optimal zone of the report is a
    reservoir zone of the list, every reservoir zone before it has a
    smaller key and no reservoir zone after it has a greater one: it is
    the first zone of greatest key
    [(porosity_effective or 0) * (1 - (saturation_water or 1))]. *)
Theorem X16_optimal_zone_first_greatest (zones : list Petrophysics.t)
    (best : Petrophysics.t) :
  Forall (λ z, is_nan (zone_score z) = false) (zones_of_type "reservoir" zones) →
  best_zone (zones_of_type "reservoir" zones) = Some best →
  best ∈ zones
  ∧ Petrophysics.zone_type best = Some "reservoir"
  ∧ ∃ before after,
      zones_of_type "reservoir" zones = before ++ best :: after
      ∧ Forall (λ z, nltb (zone_score z) (zone_score best) = true) before
      ∧ Forall (λ z, nleb (zone_score z) (zone_score best) = true) after.
Proof.
  intros Hnan Hbest.
  pose proof (best_zone_elem _ _ Hbest) as Hin.
  apply list_elem_of_filter in Hin as [Htype Hin].
  split; [done|]. split; [done|].
  unfold best_zone, py_max in Hbest.
  destruct (zones_of_type "reservoir" zones) as [|z zs]; [done|].
  injection Hbest as <-.
  destruct (max_from_first zone_score zs [] [] z Hnan)
    as (l1 & l2 & Heq & H1 & H2); [constructor | constructor |].
  by exists l1, l2.
Qed.

Lemma X16_optimal_zone_first_greatest_witness :
  Demo.reservoir_zone2
  ∈ [Demo.shale_zone; Demo.reservoir_zone; Demo.reservoir_zone2]
  ∧ Petrophysics.zone_type Demo.reservoir_zone2 = Some "reservoir"
  ∧ ∃ before after,
      zones_of_type "reservoir"
        [Demo.shale_zone; Demo.reservoir_zone; Demo.reservoir_zone2]
      = before ++ Demo.reservoir_zone2 :: after
      ∧ Forall (λ z, nltb (zone_score z) (zone_score Demo.reservoir_zone2) = true)
          before
      ∧ Forall (λ z, nleb (zone_score z) (zone_score Demo.reservoir_zone2) = true)
          after.
Proof.
  apply (X16_optimal_zone_first_greatest
           [Demo.shale_zone; Demo.reservoir_zone; Demo.reservoir_zone2]
           Demo.reservoir_zone2).
  - repeat constructor.
  - reflexivity.
Defined.

(** ** Suggestions *)

Lemma available_log_types_elem (db : Database) (well_id : Z) (t : string) :
  t ∈ available_log_types db well_id
  ↔ ∃ l, l ∈ well_logs db ∧ WellLog.well_id l = well_id
         ∧ WellLog.log_type l = t.
Proof.
  unfold available_log_types.
  rewrite elem_of_remove_dups, list_elem_of_fmap. split.
  - intros (l & -> & Hl). apply list_elem_of_filter in Hl as [Hw Hl].
    by exists l.
  - intros (l & Hl & Hw & <-). exists l. split; [done|].
    by apply list_elem_of_filter.
Qed.

Lemma filter_none_elem {A} (P : A → Prop) `{!∀ x, Decision (P x)} (l : list A) :
  (∀ x, x ∈ l → ¬ P x) → filter P l = [].
Proof.
  induction l as [|x l IH]; intros HP; [done|].
  rewrite filter_cons_False by (apply HP, list_elem_of_here).
  apply IH. intros y Hy. by apply HP, list_elem_of_further.
Qed.

Lemma elem_of_if_singleton {A} (P : Prop) `{!Decision P} (x y : A) :
  x ∈ (if bool_decide P then [y] else []) ↔ P ∧ x = y.
Proof.
  case_bool_decide.
  - rewrite list_elem_of_singleton. tauto.
  - rewrite elem_of_nil. tauto.
Qed.

(** The suggestions for a well that has at least one sample. *)
Lemma get_suggestions_with_logs (db : Database) (user_id well_id : Z)
    (well : Well.t) :
  query_well db well_id user_id = Some well →
  (∃ l, l ∈ well_logs db ∧ WellLog.well_id l = well_id) →
  ∃ suggestions,
    get_suggestions db user_id well_id = Some suggestions
    ∧ (NoLogAvailable ∉ suggestions)
    ∧ (GammaRayAvailable ∈ suggestions
       ↔ "GR" ∈ available_log_types db well_id)
    ∧ (CrossplotAvailable ∈ suggestions
       ↔ "DENS" ∈ available_log_types db well_id
         ∧ "NEUT" ∈ available_log_types db well_id)
    ∧ (ResistivityAvailable ∈ suggestions
       ↔ "RESIS" ∈ available_log_types db well_id)
    ∧ (NoAnalysis ∈ suggestions
       ↔ ∀ z, z ∈ petrophysics db → Petrophysics.well_id z ≠ well_id).
Proof.
  intros Hwell. unfold get_suggestions. rewrite Hwell.
  intros (l & Hl & Hw).
  assert (WellLog.log_type l ∈ available_log_types db well_id) as Hin.
  { apply available_log_types_elem. by exists l. }
  destruct (available_log_types db well_id) as [|t ts] eqn:Ha;
    [by apply elem_of_nil in Hin|].
  rewrite <- Ha in *. clear Ha Hin t ts.
  eexists. split; [reflexivity|].
  assert (length (filter (λ z, Petrophysics.well_id z = well_id)
                    (petrophysics db)) = 0%nat
          ↔ ∀ z, z ∈ petrophysics db → Petrophysics.well_id z ≠ well_id)
    as Hcount.
  { split.
    - intros Hlen z Hz Hid. apply length_zero_iff_nil in Hlen.
      assert (z ∈ filter (λ z, Petrophysics.well_id z = well_id)
                    (petrophysics db)) as Hf by (by apply list_elem_of_filter).
      rewrite Hlen in Hf. by apply elem_of_nil in Hf.
    - intros Hno. by rewrite filter_none_elem. }
  set (tail :=
         if bool_decide
              (length (filter (λ z, Petrophysics.well_id z = well_id)
                         (petrophysics db)) = 0%nat)
         then [NoAnalysis]
         else
           match
             filter (λ z, Petrophysics.well_id z = well_id
                          ∧ Petrophysics.zone_type z = Some "reservoir")
               (petrophysics db)
           with
           | [] => []
           | _ => [ReservoirZonesFound _]
           end).
  assert (∀ x, x ∈ tail →
               x = NoAnalysis
               ∧ length (filter (λ z, Petrophysics.well_id z = well_id)
                           (petrophysics db)) = 0%nat
               ∨ ∃ n, x = ReservoirZonesFound n) as Htail.
  { intros x. unfold tail. case_bool_decide as Hlen.
    - rewrite list_elem_of_singleton. by left.
    - destruct (filter (λ z, _ ∧ _) (petrophysics db));
        [by rewrite elem_of_nil|].
      rewrite list_elem_of_singleton. intros ->. right. by eexists. }
  assert (NoAnalysis ∈ tail
          ↔ length (filter (λ z, Petrophysics.well_id z = well_id)
                      (petrophysics db)) = 0%nat) as Hnoanalysis.
  { split.
    - intros Hx. by destruct (Htail _ Hx) as [[_ H]|[n H]].
    - intros Hlen. unfold tail. rewrite bool_decide_eq_true_2 by done.
      apply list_elem_of_here. }
  assert (∀ x, x ∈ tail → x ≠ NoLogAvailable ∧ x ≠ GammaRayAvailable
                         ∧ x ≠ CrossplotAvailable ∧ x ≠ ResistivityAvailable)
    as Hother.
  { intros x Hx. by destruct (Htail _ Hx) as [[-> _]|[n ->]]. }
  rewrite !elem_of_app, !elem_of_if_singleton.
  split; [|split; [|split; [|split]]].
  + intros [[_ H]|[[_ H]|[[_ H]|H]]]; try done.
    by apply Hother in H as (? & ? & ? & ?).
  + split; [|intros H; by left].
    intros [[H _]|[[_ H]|[[_ H]|H]]]; try done. by apply Hother in H as (? & ? & ? & ?).
  + split; [|intros H; right; by left].
    intros [[_ H]|[[H _]|[[_ H]|H]]]; try done. by apply Hother in H as (? & ? & ? & ?).
  + split; [|intros H; right; right; by left].
    intros [[_ H]|[[_ H]|[[H _]|H]]]; try done. by apply Hother in H as (? & ? & ? & ?).
  + rewrite <- Hcount, <- Hnoanalysis. split; [|intros H; by do 3 right].
    intros [[_ H]|[[_ H]|[[_ H]|H]]]; done.
Qed.

(** X17. For a well of the user: when the well has no sample at all the
    only suggestion is the warning that no log is available, whether or
    not zones are stored.  Otherwise that warning is absent, and the
    gamma-ray action is suggested exactly when the well has a gamma-ray
    sample, the crossplot exactly when it has both a density and a neutron
    sample, the Archie action exactly when it has a resistivity sample,
    and the missing-analysis note exactly when no zone of the well is
    stored. *)
Theorem X17_suggestions (db : Database) (user_id well_id : Z) (well : Well.t) :
  query_well db well_id user_id = Some well →
  ((∀ l, l ∈ well_logs db → WellLog.well_id l ≠ well_id) →
   get_suggestions db user_id well_id = Some [NoLogAvailable])
  ∧ ((∃ l, l ∈ well_logs db ∧ WellLog.well_id l = well_id) →
     ∃ suggestions,
       get_suggestions db user_id well_id = Some suggestions
       ∧ (NoLogAvailable ∉ suggestions)
       ∧ (GammaRayAvailable ∈ suggestions
          ↔ "GR" ∈ available_log_types db well_id)
       ∧ (CrossplotAvailable ∈ suggestions
          ↔ "DENS" ∈ available_log_types db well_id
            ∧ "NEUT" ∈ available_log_types db well_id)
       ∧ (ResistivityAvailable ∈ suggestions
          ↔ "RESIS" ∈ available_log_types db well_id)
       ∧ (NoAnalysis ∈ suggestions
          ↔ ∀ z, z ∈ petrophysics db → Petrophysics.well_id z ≠ well_id))
  ∧ ∀ t, t ∈ available_log_types db well_id
         ↔ ∃ l, l ∈ well_logs db ∧ WellLog.well_id l = well_id
                ∧ WellLog.log_type l = t.
Proof.
  intros Hwell. unfold get_suggestions. rewrite Hwell.
  split; [|split; [|apply available_log_types_elem]].
  - intros Hnone.
    destruct (available_log_types db well_id) as [|t ts] eqn:Ha; [done|].
    assert (t ∈ available_log_types db well_id) as Ht.
    { rewrite Ha. apply list_elem_of_here. }
    apply available_log_types_elem in Ht as (l & Hl & Hw & _).
    by destruct (Hnone l Hl).
  - intros Hlogs.
    pose proof (get_suggestions_with_logs db user_id well_id well Hwell Hlogs)
      as Hspec.
    unfold get_suggestions in Hspec. by rewrite Hwell in Hspec.
Qed.

Lemma X17_suggestions_witness :
  get_suggestions (mkDatabase [Demo.well] [] [Demo.reservoir_zone]) 7 1
  = Some [NoLogAvailable]
  ∧ ∃ suggestions,
      get_suggestions Demo.db 7 1 = Some suggestions
      ∧ (NoLogAvailable ∉ suggestions)
      ∧ (GammaRayAvailable ∈ suggestions
         ↔ "GR" ∈ available_log_types Demo.db 1)
      ∧ (CrossplotAvailable ∈ suggestions
         ↔ "DENS" ∈ available_log_types Demo.db 1
           ∧ "NEUT" ∈ available_log_types Demo.db 1)
      ∧ (ResistivityAvailable ∈ suggestions
         ↔ "RESIS" ∈ available_log_types Demo.db 1)
      ∧ (NoAnalysis ∈ suggestions
         ↔ ∀ z, z ∈ petrophysics Demo.db → Petrophysics.well_id z ≠ 1%Z).
Proof.
  split.
  - apply (X17_suggestions (mkDatabase [Demo.well] [] [Demo.reservoir_zone])
             7 1 Demo.well eq_refl).
    intros l Hl. by apply elem_of_nil in Hl.
  - apply (X17_suggestions Demo.db 7 1 Demo.well eq_refl).
    exists (Demo.sample "GR" 100 (of_Z 20)). split; [|reflexivity].
    apply list_elem_of_here.
Defined.

(** X18. After a computation answered 201 the suggestions of the same
    well propose the gamma-ray action and no longer say that the analysis
    or the logs are missing. *)
Theorem X18_suggestions_after_computation (power : Qc → Qc → Qc)
    (db db' : Database) (user_id well_id : Z) (data : gmap string Qc)
    (petro : Petrophysics.t) (interp : Interpretation) :
  calculate_petrophysics power db user_id well_id data
  = (Created petro interp, db') →
  ∃ suggestions,
    get_suggestions db' user_id well_id = Some suggestions
    ∧ GammaRayAvailable ∈ suggestions
    ∧ (NoAnalysis ∉ suggestions)
    ∧ (NoLogAvailable ∉ suggestions).
Proof.
  intros Hcreated.
  assert (∃ well, query_well db well_id user_id = Some well) as [well Hwell].
  { revert Hcreated. unfold calculate_petrophysics.
    destruct (query_well db well_id user_id); [by eexists | done]. }
  apply calculate_petrophysics_created in Hcreated
    as (df & dt & _ & _ & _ & _ & Hzone & ->).
  destruct Hzone as (gr & Hgr & Hid & _).
  destruct (query_logs db well_id "GR" df dt) as [|l ls] eqn:Hq; [done|].
  assert (l ∈ query_logs db well_id "GR" df dt) as Hin.
  { rewrite Hq. apply list_elem_of_here. }
  unfold query_logs in Hin. rewrite order_by_perm in Hin.
  apply list_elem_of_filter in Hin as [_ Hin].
  apply list_elem_of_filter in Hin as [[Hw Ht] Hin].
  destruct (get_suggestions_with_logs (session_add db petro) user_id well_id well)
    as (suggestions & Hs & Hnolog & Hgamma & _ & _ & Hnoanalysis);
    [done | by exists l |].
  exists suggestions. split; [done|]. split; [|split; [|done]].
  - apply Hgamma, available_log_types_elem. by exists l.
  - intros Hno. destruct Hnoanalysis as [Hnone _].
    apply (Hnone Hno petro); [|done].
    simpl. apply elem_of_app. right. apply list_elem_of_here.
Qed.

Lemma X18_suggestions_after_computation_witness :
  ∃ suggestions,
    get_suggestions (snd demo_computation) 7 1 = Some suggestions
    ∧ GammaRayAvailable ∈ suggestions
    ∧ (NoAnalysis ∉ suggestions)
    ∧ (NoLogAvailable ∉ suggestions).
Proof.
  destruct demo_computation_created as (petro & interp & db' & Hcreated).
  unfold demo_computation. rewrite Hcreated. simpl.
  exact (X18_suggestions_after_computation power_floor Demo.db db' 7 1
           Demo.request petro interp Hcreated).
Defined.

(** ** The advice returned with a computed zone *)

Lemma truthy_neq (x : num) : truthy x = true ↔ x ≠ Fin 0.
Proof.
  destruct x as [q| | |]; simpl; try done.
  rewrite negb_true_iff, Qceqb_neq. split; [congruence|].
  intros H ->. by apply H.
Qed.

Lemma ngtb_nltb_exclusive (x : num) (above below : Qc) :
  below ≤ above → ngtb x (Fin above) = true → nltb x (Fin below) = false.
Proof.
  intros Hle. unfold ngtb. destruct x as [q| | |]; simpl; try done.
  rewrite Qcltb_lt, Qcltb_ge. intros Hlt.
  apply Qcle_trans with above; [done|]. by apply Qclt_le_weak.
Qed.

(** One block of [_get_recommendations]: the advice for a value above its
    upper threshold, or for a non-zero value below its lower one. *)
Lemma advise_elem (o : option num) (above below : Qc) (a_above a_below y : Advice)
    (upper_first : bool) :
  below ≤ above →
  y ∈ advise o above a_above below a_below upper_first
  ↔ ∃ x, o = Some x ∧ x ≠ Fin 0
         ∧ (y = a_above ∧ ngtb x (Fin above) = true
            ∨ y = a_below ∧ nltb x (Fin below) = true).
Proof.
  intros Hle. unfold advise. destruct o as [x|].
  2:{ rewrite elem_of_nil. split; [done|]. by intros (x & H & _). }
  destruct (truthy x) eqn:Ht.
  2:{ rewrite elem_of_nil. split; [done|].
      intros (x' & [= <-] & Hx & _). apply truthy_neq in Hx. congruence. }
  apply truthy_neq in Ht.
  pose proof (ngtb_nltb_exclusive x above below Hle) as Hex.
  destruct (ngtb x (Fin above)) eqn:Ha, (nltb x (Fin below)) eqn:Hb,
    upper_first;
    try (by discriminate (Hex eq_refl));
    cbv iota; rewrite ?list_elem_of_singleton, ?elem_of_nil;
    (split; [intros H; try done; exists x; naive_solver
            | intros (x' & [= <-] & _ & [[? ?]|[? ?]]); congruence]).
Qed.

(** X19. The advice answered with a computed zone: the clay-zone advice
    exactly for a clay volume above 0.5 and the clean-zone advice exactly
    for one below 0.2 that is not zero; the good-porosity advice exactly
    for an effective porosity above 0.15 and the low-porosity advice
    exactly for one below 0.08 that is not zero; the high-saturation
    advice exactly for a water saturation above 0.7 and the low-saturation
    advice exactly for one below 0.4 that is not zero.  A value that is
    absent, zero or [nan] brings no advice, and there are at most three. *)
Theorem X19_advice (petro : Petrophysics.t) :
  let has (column : Petrophysics.t → option num) (test : num → bool) :=
    ∃ x, column petro = Some x ∧ x ≠ Fin 0 ∧ test x = true in
  (ClayZone ∈ _get_recommendations petro
   ↔ has Petrophysics.vshale (λ x, ngtb x (frac 5 10)))
  ∧ (CleanZone ∈ _get_recommendations petro
     ↔ has Petrophysics.vshale (λ x, nltb x (frac 2 10)))
  ∧ (GoodPorosity ∈ _get_recommendations petro
     ↔ has Petrophysics.porosity_effective (λ x, ngtb x (frac 15 100)))
  ∧ (LowPorosity ∈ _get_recommendations petro
     ↔ has Petrophysics.porosity_effective (λ x, nltb x (frac 8 100)))
  ∧ (HighSaturation ∈ _get_recommendations petro
     ↔ has Petrophysics.saturation_water (λ x, ngtb x (frac 7 10)))
  ∧ (LowSaturation ∈ _get_recommendations petro
     ↔ has Petrophysics.saturation_water (λ x, nltb x (frac 4 10)))
  ∧ (length (_get_recommendations petro) ≤ 3)%nat.
Proof.
  intros has. unfold has, _get_recommendations.
  assert (frac 2 10 ≤ frac 5 10) as H1 by done.
  assert (frac 8 100 ≤ frac 15 100) as H2 by done.
  assert (frac 4 10 ≤ frac 7 10) as H3 by done.
  assert (∀ y,
            y ∈ advise (Petrophysics.vshale petro) (frac 5 10) ClayZone
                  (frac 2 10) CleanZone true
                ++ advise (Petrophysics.porosity_effective petro) (frac 15 100)
                     GoodPorosity (frac 8 100) LowPorosity true
                ++ advise (Petrophysics.saturation_water petro) (frac 7 10)
                     HighSaturation (frac 4 10) LowSaturation false
            ↔ (∃ x, Petrophysics.vshale petro = Some x ∧ x ≠ Fin 0
                    ∧ (y = ClayZone ∧ ngtb x (frac 5 10) = true
                       ∨ y = CleanZone ∧ nltb x (frac 2 10) = true))
              ∨ (∃ x, Petrophysics.porosity_effective petro = Some x ∧ x ≠ Fin 0
                      ∧ (y = GoodPorosity ∧ ngtb x (frac 15 100) = true
                         ∨ y = LowPorosity ∧ nltb x (frac 8 100) = true))
              ∨ (∃ x, Petrophysics.saturation_water petro = Some x ∧ x ≠ Fin 0
                      ∧ (y = HighSaturation ∧ ngtb x (frac 7 10) = true
                         ∨ y = LowSaturation ∧ nltb x (frac 4 10) = true)))
    as Helem.
  { intros y.
    by rewrite !elem_of_app, (advise_elem _ _ _ _ _ _ _ H1),
         (advise_elem _ _ _ _ _ _ _ H2), (advise_elem _ _ _ _ _ _ _ H3). }
  repeat split;
    try (rewrite Helem;
         intros [(x & ? & ? & [[? ?]|[? ?]])
                |[(x & ? & ? & [[? ?]|[? ?]])|(x & ? & ? & [[? ?]|[? ?]])]];
         try discriminate; by exists x);
    try (intros (x & ? & ? & ?); apply Helem;
         first [left; exists x; by eauto 10
               |right; left; exists x; by eauto 10
               |right; right; exists x; by eauto 10]).
  rewrite !length_app.
  assert (∀ o above a_above below a_below uf,
            (length (advise o above a_above below a_below uf) ≤ 1)%nat) as Hlen.
  { intros o above a_above below a_below uf. unfold advise.
    destruct o as [x|]; [|simpl; lia].
    destruct (truthy x), uf, (ngtb x above), (nltb x below); simpl; lia. }
  pose proof (Hlen (Petrophysics.vshale petro) (frac 5 10) ClayZone
                (frac 2 10) CleanZone true).
  pose proof (Hlen (Petrophysics.porosity_effective petro) (frac 15 100)
                GoodPorosity (frac 8 100) LowPorosity true).
  pose proof (Hlen (Petrophysics.saturation_water petro) (frac 7 10)
                HighSaturation (frac 4 10) LowSaturation false).
  lia.
Qed.

(** ** The structure of the recommendations *)

(** X20. When the recommendations of the report are returned: they are
    the single invitation to launch an analysis exactly when the well has
    no zone; with a reservoir zone they begin with the line of the optimal
    zone, which prints the bounds, the effective porosity and the water
    saturation of [best_zone]; and the multi-zone completion is
    recommended exactly when the well has more than one reservoir zone,
    with their number. *)
Theorem X20_recommendations_structure (zones : list Petrophysics.t)
    (recs : list Recommendation) :
  _generate_recommendations zones = Returns recs →
  (LaunchAnalysis ∈ recs ↔ zones = [])
  ∧ (zones = [] → recs = [LaunchAnalysis])
  ∧ (∀ best, best_zone (zones_of_type "reservoir" zones) = Some best →
       ∃ phi_eff sw,
         Petrophysics.porosity_effective best = Some phi_eff
         ∧ Petrophysics.saturation_water best = Some sw
         ∧ head recs
           = Some (OptimalZone (Petrophysics.depth_from best)
                     (Petrophysics.depth_to best) phi_eff sw))
  ∧ (∀ n, MultiZoneCompletion n ∈ recs
          ↔ n = length (zones_of_type "reservoir" zones) ∧ (1 < n)%nat).
Proof.
  assert (∀ wz rz x, x ∈ proximity_warnings wz rz → is_water_warning x) as Hwarn.
  { intros wz rz x. rewrite proximity_warnings_filter, list_elem_of_fmap.
    by intros (w & -> & _). }
  unfold _generate_recommendations.
  destruct zones as [|z zs] eqn:Hzones.
  { intros [= <-]. split; [split; [done | intros _; apply list_elem_of_here]|].
    split; [done|]. split; [done|].
    intros n. rewrite list_elem_of_singleton. split; [done|].
    intros [-> Hn]. simpl in Hn. lia. }
  rewrite <- Hzones. assert (zones ≠ []) as Hne by (by rewrite Hzones).
  clear Hzones z zs.
  destruct (best_zone (zones_of_type "reservoir" zones)) as [best|] eqn:Hbest.
  - unfold optimal_zone_line.
    destruct (Petrophysics.porosity_effective best) as [phie|] eqn:Ephie; [|done].
    destruct (Petrophysics.saturation_water best) as [sw|] eqn:Esw; [|done].
    intros [= <-]. split; [|split; [done|split]].
    + split; [|done]. rewrite elem_of_cons, elem_of_app.
      intros [H|[H|H]]; [done| |by apply Hwarn in H].
      case_bool_decide; [|by apply elem_of_nil in H].
      by apply list_elem_of_singleton in H.
    + intros b [= <-]. by exists phie, sw.
    + intros n. rewrite elem_of_cons, elem_of_app. split.
      * intros [H|[H|H]]; [done| |by apply Hwarn in H].
        case_bool_decide; [|by apply elem_of_nil in H].
        apply list_elem_of_singleton in H. by injection H as ->.
      * intros [-> Hn]. right. left. rewrite bool_decide_eq_true_2 by done.
        apply list_elem_of_here.
  - intros [= <-]. split; [|split; [done|split; [done|]]].
    + split; [|done]. intros H. by apply Hwarn in H.
    + intros n. split; [intros H; by apply Hwarn in H|].
      intros [-> Hn]. unfold best_zone, py_max in Hbest.
      destruct (zones_of_type "reservoir" zones); [simpl in Hn; lia | done].
Qed.

Lemma X20_recommendations_structure_witness :
  ∃ recs,
    _generate_recommendations
      [Demo.shale_zone; Demo.reservoir_zone; Demo.reservoir_zone2]
    = Returns recs
    ∧ MultiZoneCompletion 2 ∈ recs
    ∧ head recs
      = Some (OptimalZone (of_Z 2960) (of_Z 3050) (Fin (frac 20 100))
                (Fin (frac 28 100))).
Proof.
  eexists. split; [reflexivity|].
  destruct (X20_recommendations_structure
              [Demo.shale_zone; Demo.reservoir_zone; Demo.reservoir_zone2]
              _ eq_refl) as (_ & _ & Hbest & Hmulti).
  split.
  - apply Hmulti. split; [reflexivity | simpl; lia].
  - destruct (Hbest Demo.reservoir_zone2 eq_refl) as (phie & sw & Hp & Hs & Hhead).
    injection Hp as <-. injection Hs as <-. exact Hhead.
Defined.

(** ** Averages stay among the values *)




(** ** Extreme readings *)

Lemma np_mean_const (l : list num) (c : Qc) :
  l ≠ [] → Forall (λ x, x = Fin c) l → np_mean l = Fin c.
Proof.
  intros Hne Hall.
  destruct (bounded_finite c c (np_mean l)) as (q & -> & H1 & H2).
  - apply np_mean_bounded; [done|].
    eapply Forall_impl; [exact Hall|]. intros x ->. simpl.
    split; apply Qcle_refl.
  - apply np_mean_finite; [done|].
    eapply Forall_impl; [exact Hall|]. by intros x ->.
  - f_equal. by apply Qcle_antisym.
Qed.

Lemma log_entry_values_eq (log_data : list WellLog.t) (entry : LogData) :
  log_entry log_data = Some entry → values entry = WellLog.value <$> log_data.
Proof. destruct log_data; [done|]. by intros [= <-]. Qed.

(** The gamma-ray index of a reading at or below the clean-sand reading is
    0, and of a reading at or above the shale reading is 1. *)
Lemma igr_clean (g gr_clean gr_shale : Qc) :
  gr_clean < gr_shale → g ≤ gr_clean →
  np_clip1 0 1 (ndiv (nsub (Fin g) (Fin gr_clean)) (Fin (gr_shale - gr_clean)))
  = Fin 0.
Proof.
  intros Hcal Hg. simpl.
  assert (Qceqb (gr_shale - gr_clean) 0 = false) as ->.
  { apply Qceqb_neq. intros H. qc2q. lra. }
  assert ((g + - gr_clean) / (gr_shale - gr_clean) ≤ 0) as Hle.
  { qc2q. apply Qle_shift_div_r; lra. }
  simpl. destruct (Qcltb _ 0) eqn:Hlt; [done|].
  apply Qcltb_ge in Hlt.
  assert ((g + - gr_clean) / (gr_shale - gr_clean) = 0) as ->
    by (by apply Qcle_antisym).
  done.
Qed.

Lemma igr_shale (g gr_clean gr_shale : Qc) :
  gr_clean < gr_shale → gr_shale ≤ g →
  np_clip1 0 1 (ndiv (nsub (Fin g) (Fin gr_clean)) (Fin (gr_shale - gr_clean)))
  = Fin 1.
Proof.
  intros Hcal Hg. simpl.
  assert (Qceqb (gr_shale - gr_clean) 0 = false) as ->.
  { apply Qceqb_neq. intros H. qc2q. lra. }
  assert (1 ≤ (g + - gr_clean) / (gr_shale - gr_clean)) as Hle.
  { qc2q. apply Qle_shift_div_l; lra. }
  simpl. destruct (Qcltb _ 0) eqn:Hlt.
  { apply Qcltb_lt in Hlt. exfalso. qc2q. lra. }
  destruct (Qcltb 1 _) eqn:Hgt; [done|].
  apply Qcltb_ge in Hgt. f_equal. by apply Qcle_antisym.
Qed.

Section Larionov.

Variable power : Qc → Qc → Qc.
Hypothesis power_2_0 : power 2 0 = 1.
Hypothesis power_2_2 : power 2 2 = of_Z 4.

Lemma vshale_mean_clean (vs : list Qc) (gr_clean gr_shale : Qc) :
  gr_clean < gr_shale → vs ≠ [] → Forall (λ v, v ≤ gr_clean) vs →
  vshale_mean_of power (np_array vs) gr_clean gr_shale = Fin 0.
Proof.
  intros Hcal Hne Hall. unfold vshale_mean_of. apply np_mean_const.
  { by destruct vs. }
  unfold vshale_of, igr_of, np_clip, np_array.
  rewrite <- !list_fmap_compose. apply Forall_fmap.
  eapply Forall_impl; [exact Hall|]. intros g Hg. cbn [compose].
  rewrite (igr_clean g gr_clean gr_shale Hcal Hg). cbn [nmul npow].
  rewrite Qcmult_0_r, power_2_0. by_compute.
Qed.

Lemma vshale_mean_shale (vs : list Qc) (gr_clean gr_shale : Qc) :
  gr_clean < gr_shale → vs ≠ [] → Forall (λ v, gr_shale ≤ v) vs →
  vshale_mean_of power (np_array vs) gr_clean gr_shale = Fin (frac 99 100).
Proof.
  intros Hcal Hne Hall. unfold vshale_mean_of. apply np_mean_const.
  { by destruct vs. }
  unfold vshale_of, igr_of, np_clip, np_array.
  rewrite <- !list_fmap_compose. apply Forall_fmap.
  eapply Forall_impl; [exact Hall|]. intros g Hg. cbn [compose].
  rewrite (igr_shale g gr_clean gr_shale Hcal Hg). cbn [nmul npow].
  rewrite Qcmult_1_r, power_2_2. by_compute.
Qed.

End Larionov.

(** X22. With [2 ** 0 = 1], [2 ** 2 = 4] and [gr_clean < gr_shale]: a zone
    computed from gamma-ray readings that are all at or below [gr_clean]
    is stored with a clay volume of exactly 0 and is not a shale; a zone
    computed from readings that are all at or above [gr_shale] is stored
    with the clay volume 0.99 and is a shale. *)
Theorem X22_extreme_gamma_ray (power : Qc → Qc → Qc) (db db' : Database)
    (user_id well_id : Z) (data : gmap string Qc)
    (petro : Petrophysics.t) (interp : Interpretation) :
  power 2 0 = 1 → power 2 2 = of_Z 4 →
  gr_clean_of data < gr_shale_of data →
  calculate_petrophysics power db user_id well_id data
  = (Created petro interp, db') →
  let read (l : WellLog.t) :=
    l ∈ well_logs db ∧ WellLog.well_id l = well_id ∧ WellLog.log_type l = "GR"
    ∧ Petrophysics.depth_from petro ≤ WellLog.depth l
    ∧ WellLog.depth l ≤ Petrophysics.depth_to petro in
  ((∀ l, read l → WellLog.value l ≤ gr_clean_of data) →
   Petrophysics.vshale petro = Some (Fin 0)
   ∧ Petrophysics.zone_type petro ≠ Some "shale")
  ∧ ((∀ l, read l → gr_shale_of data ≤ WellLog.value l) →
     Petrophysics.vshale petro = Some (Fin (frac 99 100))
     ∧ Petrophysics.zone_type petro = Some "shale").
Proof.
  intros Hp0 Hp2 Hcal Hcreated read.
  apply calculate_petrophysics_created in Hcreated
    as (df & dt & _ & _ & _ & _ & Hzone & _).
  destruct Hzone as (gr & Hgr & _ & Hfrom & Hto & Hvsh & _ & _ & _ & Htype).
  pose proof (log_entry_values _ _ Hgr) as Hne.
  pose proof (log_entry_values_eq _ _ Hgr) as Hvalues.
  assert (∀ P : Qc → Prop,
            (∀ l, read l → P (WellLog.value l)) → Forall P (values gr)) as Hall.
  { intros P HP. rewrite Hvalues. apply Forall_fmap, Forall_forall.
    intros l Hl. apply query_logs_elem in Hl. apply HP.
    unfold read. by rewrite Hfrom, Hto. }
  split; intros Hread.
  - rewrite (vshale_mean_clean power Hp0 (values gr)) in Hvsh, Htype
      by (try done; by apply Hall).
    split; [done|]. rewrite Htype. unfold classify_zone.
    change (nltb (Fin 0) (frac 3 10)) with true. cbv iota.
    destruct (Petrophysics.saturation_water petro) as [sw|]; [|done].
    by destruct (truthy sw && nltb sw (frac 5 10)).
  - rewrite (vshale_mean_shale power Hp2 (values gr)) in Hvsh, Htype
      by (try done; by apply Hall).
    done.
Qed.

Lemma power_floor_2_0 : power_floor 2 0 = 1.
Proof. by_compute. Qed.

Lemma power_floor_2_2 : power_floor 2 2 = of_Z 4.
Proof. by_compute. Qed.

Lemma X22_extreme_gamma_ray_witness :
  match fst demo_computation with
  | Created petro interp =>
      Petrophysics.vshale petro = Some (Fin 0)
      ∧ Petrophysics.zone_type petro ≠ Some "shale"
  | _ => False
  end.
Proof.
  destruct demo_computation_created as (petro & interp & db' & Hcreated).
  unfold demo_computation. rewrite Hcreated. simpl.
  apply (X22_extreme_gamma_ray power_floor Demo.db db' 7 1 Demo.request
           petro interp power_floor_2_0 power_floor_2_2 eq_refl Hcreated).
  intros l (Hl & _ & Htype & _).
  repeat (apply elem_of_cons in Hl as [->|Hl]); try discriminate.
  by apply elem_of_nil in Hl.
Defined.

(** A density at or above the matrix density gives a porosity of 0. *)
Lemma porosity_dens_dense (d rho_matrix rho_fluid : Qc) :
  rho_fluid < rho_matrix → rho_matrix ≤ d →
  np_clip1 0 (frac 5 10)
    (ndiv (nsub (Fin rho_matrix) (Fin d)) (Fin (rho_matrix - rho_fluid)))
  = Fin 0.
Proof.
  intros Hcal Hd. simpl.
  assert (Qceqb (rho_matrix - rho_fluid) 0 = false) as ->.
  { apply Qceqb_neq. intros H. qc2q. lra. }
  assert ((rho_matrix + - d) / (rho_matrix - rho_fluid) ≤ 0) as Hle.
  { qc2q. apply Qle_shift_div_r; lra. }
  simpl. destruct (Qcltb _ 0) eqn:Hlt; [done|].
  apply Qcltb_ge in Hlt.
  assert ((rho_matrix + - d) / (rho_matrix - rho_fluid) = 0) as ->
    by (by apply Qcle_antisym).
  done.
Qed.

Lemma porosity_dense (vs : list Qc) (rho_matrix rho_fluid : Qc) :
  rho_fluid < rho_matrix → vs ≠ [] → Forall (λ v, rho_matrix ≤ v) vs →
  porosity_of (np_array vs) rho_matrix rho_fluid = Fin 0.
Proof.
  intros Hcal Hne Hall. unfold porosity_of. apply np_mean_const.
  { by destruct vs. }
  unfold porosity_dens_of, np_clip, np_array.
  rewrite <- !list_fmap_compose. apply Forall_fmap.
  eapply Forall_impl; [exact Hall|]. intros d Hd. cbn [compose].
  by apply porosity_dens_dense.
Qed.

(** X23. With [gr_shale ≠ gr_clean] and [rho_fluid < rho_matrix]: a zone
    computed over an interval that has density readings, all at or above
    [rho_matrix], is stored with porosity 0 and effective porosity 0;
    its water saturation is absent whatever the resistivity, it is not
    of type reservoir and [is_reservoir] is false. *)
Theorem X23_dense_rock (power : Qc → Qc → Qc) (db db' : Database)
    (user_id well_id : Z) (data : gmap string Qc)
    (petro : Petrophysics.t) (interp : Interpretation) (sample : WellLog.t) :
  gr_shale_of data ≠ gr_clean_of data →
  rho_fluid_of data < rho_matrix_of data →
  calculate_petrophysics power db user_id well_id data
  = (Created petro interp, db') →
  let read (l : WellLog.t) :=
    l ∈ well_logs db ∧ WellLog.well_id l = well_id
    ∧ WellLog.log_type l = "DENS"
    ∧ Petrophysics.depth_from petro ≤ WellLog.depth l
    ∧ WellLog.depth l ≤ Petrophysics.depth_to petro in
  read sample →
  (∀ l, read l → rho_matrix_of data ≤ WellLog.value l) →
  Petrophysics.porosity petro = Some (Fin 0)
  ∧ Petrophysics.porosity_effective petro = Some (Fin 0)
  ∧ Petrophysics.saturation_water petro = None
  ∧ Petrophysics.zone_type petro ≠ Some "reservoir"
  ∧ Petrophysics.is_reservoir petro = false.
Proof.
  intros Hgr_cal Hrho Hcreated read Hsample Hdense.
  apply calculate_petrophysics_created in Hcreated
    as (df & dt & _ & _ & _ & _ & Hzone & _).
  destruct Hzone
    as (gr & Hgr & _ & Hfrom & Hto & Hvsh & Hphi & Hphie & Hsw & Htype).
  destruct (vshale_mean_finite power (values gr) (gr_clean_of data)
              (gr_shale_of data)) as (v & Hv & _ & _);
    [by eapply log_entry_values|done|].
  rewrite Hv in Hvsh, Hphie, Htype.
  destruct (log_entry (query_logs db well_id "DENS" df dt)) as [dens|] eqn:Ed.
  2:{ apply log_entry_None in Ed.
      assert (sample ∈ query_logs db well_id "DENS" df dt) as Hin.
      { apply query_logs_elem. unfold read in Hsample.
        by rewrite Hfrom, Hto in Hsample. }
      rewrite Ed in Hin. by apply elem_of_nil in Hin. }
  assert (porosity_of (np_array (values dens)) (rho_matrix_of data)
            (rho_fluid_of data) = Fin 0) as Hzero.
  { apply porosity_dense; [done|by eapply log_entry_values|].
    rewrite (log_entry_values_eq _ _ Ed). apply Forall_fmap, Forall_forall.
    intros l Hl. apply query_logs_elem in Hl. apply Hdense.
    unfold read. by rewrite Hfrom, Hto. }
  cbn [fmap option_fmap option_map] in Hphi. rewrite Hzero in Hphi.
  assert (nmul (Fin 0) (nsub (Fin 1) (Fin v)) = Fin 0) as Hmul.
  { simpl. f_equal. apply Qcmult_0_l. }
  rewrite Hphi in Hphie. cbn [fmap option_fmap option_map] in Hphie.
  rewrite Hmul in Hphie.
  rewrite Hphie in Hsw.
  assert (Petrophysics.saturation_water petro = None) as Hnone.
  { rewrite Hsw. by destruct (log_entry (query_logs db well_id "RESIS" df dt)). }
  repeat split; try done.
  - rewrite Htype, Hnone. unfold classify_zone.
    by destruct (nltb (Fin v) (frac 3 10)).
  - unfold Petrophysics.is_reservoir. by rewrite Hphi, Hvsh, Hnone.
Qed.

Lemma demo_matrix_computation_created :
  ∃ petro interp db',
    calculate_petrophysics power_floor Demo.db_matrix 7 1 Demo.request
    = (Created petro interp, db').
Proof. eexists _, _, _. vm_compute. reflexivity. Defined.

Lemma X23_dense_rock_witness :
  match fst demo_matrix_computation with
  | Created petro interp =>
      Petrophysics.porosity petro = Some (Fin 0)
      ∧ Petrophysics.porosity_effective petro = Some (Fin 0)
      ∧ Petrophysics.saturation_water petro = None
      ∧ Petrophysics.zone_type petro ≠ Some "reservoir"
      ∧ Petrophysics.is_reservoir petro = false
  | _ => False
  end.
Proof.
  destruct demo_matrix_computation_created
    as (petro & interp & db' & Hcreated).
  unfold demo_matrix_computation. rewrite Hcreated. cbn [fst].
  pose proof (calculate_petrophysics_created _ _ _ _ _ _ _ _ Hcreated)
    as (df & dt & Hdf & Hdt & _ & _ & Hzone & _).
  destruct Hzone as (_ & _ & _ & Hfrom & Hto & _).
  injection Hdf as <-. injection Hdt as <-.
  apply (X23_dense_rock power_floor Demo.db_matrix db' 7 1 Demo.request
           petro interp (Demo.sample "DENS" 100 (frac 265 100)));
    [discriminate|reflexivity|exact Hcreated| |].
  - rewrite Hfrom, Hto. repeat split; try done.
    unfold Demo.db_matrix. cbn [well_logs].
    rewrite !elem_of_cons. right. by left.
  - intros l (Hl & _ & Htype & _).
    repeat (apply elem_of_cons in Hl as [->|Hl]); try discriminate.
    by apply elem_of_nil in Hl.
Defined.

(** * The summary as it is answered *)

Lemma zones_of_type_perm (label : string) (l1 l2 : list Petrophysics.t) :
  l1 ≡ₚ l2 → zones_of_type label l1 ≡ₚ zones_of_type label l2.
Proof. intros Hperm. unfold zones_of_type. by rewrite Hperm. Qed.


(** The zones of the summary are the zone records of the well. *)
Lemma query_zones_perm (db : Database) (well_id : Z) :
  query_zones db well_id
  ≡ₚ filter (λ z, Petrophysics.well_id z = well_id) (petrophysics db).
Proof. unfold query_zones. apply order_by_perm. Qed.

(** ** Rounding *)

(** The nearest integer is at most one half away. *)
Lemma round_half_even_near (q : Qc) :
  q - frac 1 2 ≤ of_Z (round_half_even q)
  ∧ of_Z (round_half_even q) ≤ q + frac 1 2.
Proof.
  unfold round_half_even.
  pose proof (Qfloor_le q) as Hlo. pose proof (Qlt_floor q) as Hhi.
  rewrite inject_Z_plus in Hhi. change (inject_Z 1) with 1%Q in Hhi.
  assert (of_Z (Qfloor q + 1) = of_Z (Qfloor q) + 1) as Hsucc.
  { qc2q. rewrite inject_Z_plus. change (inject_Z 1) with 1%Q. lra. }
  destruct (Qcltb (q - of_Z (Qfloor q)) (frac 1 2)) eqn:Hlow.
  { apply Qcltb_lt in Hlow. split; qc2q; lra. }
  destruct (Qcltb (frac 1 2) (q - of_Z (Qfloor q))) eqn:Hhigh.
  { apply Qcltb_lt in Hhigh. rewrite Hsucc. split; qc2q; lra. }
  apply Qcltb_ge in Hlow, Hhigh.
  destruct (Z.even (Qfloor q)); [|rewrite Hsucc]; split; qc2q; lra.
Qed.

(** [round(x, 3)] is at most 0.0005 away from [x]. *)
Lemma py_round_fin_near (q : Qc) :
  q - frac 1 2000 ≤ py_round_fin q 3 ∧ py_round_fin q 3 ≤ q + frac 1 2000.
Proof.
  unfold py_round_fin. change (10 ^ Z.of_nat 3)%Z with 1000%Z.
  destruct (round_half_even_near (q * of_Z 1000)) as [Hlo Hhi].
  revert Hlo Hhi. generalize (round_half_even (q * of_Z 1000)). intros n.
  intros Hlo Hhi. qc2q.
  change (inject_Z 1000) with 1000%Q in *.
  split.
  - apply Qle_shift_div_l; [reflexivity|]. lra.
  - apply Qle_shift_div_r; [reflexivity|]. lra.
Qed.

(** ** Net-to-gross *)




(** ** The averages over the reservoir zones *)

(** C8, as the summary has it.  For a well of the user, with the
    reservoir zones among the zone records of the well: the average
    porosity of the summary is the arithmetic mean of [porosity_effective]
    over them, an absent value counting as 0, rounded to three decimals
    (and so within 0.0005 of a finite mean), when that mean is not 0;
    likewise the average water saturation for [saturation_water].  For a
    well without reservoir zone there is no division and both averages
    are absent. *)
Theorem C8_reservoir_averages (db : Database) (user_id well_id : Z)
    (well : Well.t) :
  query_well db well_id user_id = Some well →
  let reservoir_zones :=
    zones_of_type "reservoir"
      (filter (λ z, Petrophysics.well_id z = well_id) (petrophysics db)) in
  let mean_porosity :=
    mean_absent_as_zero (Petrophysics.porosity_effective <$> reservoir_zones) in
  let mean_sw :=
    mean_absent_as_zero (Petrophysics.saturation_water <$> reservoir_zones) in
  ∃ summary,
    get_summary db user_id well_id = Some summary
    ∧ (reservoir_zones = [] →
       Summary.average_porosity summary = None
       ∧ Summary.average_water_saturation summary = None)
    ∧ (reservoir_zones ≠ [] →
       (mean_porosity ≠ Fin 0 →
        Summary.average_porosity summary = Some (py_round mean_porosity 3))
       ∧ (mean_sw ≠ Fin 0 →
          Summary.average_water_saturation summary
          = Some (py_round mean_sw 3)))
    ∧ (∀ mean rounded : Qc,
         py_round (Fin mean) 3 = Fin rounded →
         mean - frac 1 2000 ≤ rounded ∧ rounded ≤ mean + frac 1 2000).
Proof.
  intros Hwell reservoir_zones mean_porosity mean_sw.
  unfold get_summary. rewrite Hwell. eexists. split; [reflexivity|].
  assert (zones_of_type "reservoir" (query_zones db well_id) ≡ₚ reservoir_zones)
    as Hperm by apply zones_of_type_perm, query_zones_perm.
  cbn [analysis_summary Summary.average_porosity
         Summary.average_water_saturation].
  assert (∀ column,
            reservoir_zones ≠ [] →
            average_over column (zones_of_type "reservoir"
                                   (query_zones db well_id))
            = mean_absent_as_zero (column <$> reservoir_zones)) as Hmean.
  { intros column Hne. rewrite (average_over_perm column _ _ Hperm).
    by apply average_over_mean. }
  assert (∀ x, x ≠ Fin 0 → truthy x = true) as Htruthy.
  { intros [q| | |] Hx; try done. simpl.
    destruct (Qceqb q 0) eqn:Hq; [|done].
    apply Qceqb_eq in Hq as ->. done. }
  split; [|split].
  - intros Hnil. rewrite Hnil in Hperm. apply Permutation_nil_r in Hperm.
    unfold avg_porosity, avg_sw. rewrite Hperm. done.
  - intros Hne. unfold avg_porosity, avg_sw, rounded_if.
    rewrite !Hmean by done. fold mean_porosity mean_sw.
    split; intros Hx; by rewrite (Htruthy _ Hx).
  - intros q r [= <-]. apply py_round_fin_near.
Qed.

Lemma C8_reservoir_averages_witness :
  ∃ summary,
    get_summary Demo.db_zones 7 1 = Some summary
    ∧ Summary.average_porosity summary
      = Some (py_round (Fin (frac 23 150)) 3)
    ∧ Summary.average_water_saturation summary
      = Some (py_round (Fin (frac 113 300)) 3).
Proof.
  destruct (C8_reservoir_averages Demo.db_zones 7 1 Demo.well eq_refl)
    as (summary & Hsummary & _ & Hmeans & _).
  exists summary. split; [exact Hsummary|].
  destruct Hmeans as [Hphi Hsw]; [discriminate|].
  assert (mean_absent_as_zero
            (Petrophysics.porosity_effective
               <$> zones_of_type "reservoir"
                     (filter (λ z, Petrophysics.well_id z = 1%Z)
                        (petrophysics Demo.db_zones)))
          = Fin (frac 23 150)) as Hmean_phi by by_compute.
  assert (mean_absent_as_zero
            (Petrophysics.saturation_water
               <$> zones_of_type "reservoir"
                     (filter (λ z, Petrophysics.well_id z = 1%Z)
                        (petrophysics Demo.db_zones)))
          = Fin (frac 113 300)) as Hmean_sw by by_compute.
  rewrite <- Hmean_phi, <- Hmean_sw.
  split; [apply Hphi | apply Hsw]; [rewrite Hmean_phi | rewrite Hmean_sw];
    discriminate.
Defined.

(** With effective porosities 0.16, 0.20 and 0.10 on the three reservoir
    zones the summary answers 0.153, which is not their mean 23/150. *)
Lemma C8_average_rounded :
  ∃ summary,
    get_summary Demo.db_zones 7 1 = Some summary
    ∧ mean_absent_as_zero
        (Petrophysics.porosity_effective
           <$> zones_of_type "reservoir" (petrophysics Demo.db_zones))
      = Fin (frac 23 150)
    ∧ Summary.average_porosity summary = Some (Fin (frac 153 1000))
    ∧ Summary.average_porosity summary ≠ Some (Fin (frac 23 150)).
Proof.
  eexists. split; [reflexivity|]. split; [by_compute|].
  assert (Summary.average_porosity
            (analysis_summary (query_zones Demo.db_zones 1))
          = Some (Fin (frac 153 1000))) as Hfield by by_compute.
  split; [exact Hfield|]. rewrite Hfield. discriminate.
Qed.
